(** * tensorpack/train.py: the training-loop orchestrator

    A shallow embedding of [TrainConfig.__init__], [average_gradients],
    [summary_grads] and [start_train].  TensorFlow objects the module only
    passes around (optimizers, sessions, callbacks) are handles; the
    tensors it builds itself are expression trees with a rational
    semantics. *)

From Stdlib Require Import ZArith QArith List String Lia.
From stdpp Require Import base option list gmap strings pretty.

Set Warnings "-register-all".

Local Open Scope Z_scope.
Local Open Scope string_scope.
Local Open Scope list_scope.

(** ** Python exceptions and fallible computations *)

Inductive exn :=
| KeyError (key : string)
| AssertionError
| TypeError
| ValueError
| IndexError.

Inductive result (A : Type) :=
| Ok (a : A)
| Raise (e : exn).
Arguments Ok {A} a.
Arguments Raise {A} e.

Definition raises {A} (r : result A) : Prop := exists e, r = Raise e.

Definition rbind {A B} (r : result A) (k : A -> result B) : result B :=
  match r with
  | Ok a => k a
  | Raise e => Raise e
  end.

Declare Scope result_scope.
Delimit Scope result_scope with result.
Notation "'let*' x ':=' c 'in' k" := (rbind c (fun x => k))
  (at level 10, x pattern, c at level 100, k at level 200) : result_scope.

(** [assert cond] *)
Definition assert (b : bool) : result unit :=
  if b then Ok tt else Raise AssertionError.

(** [[f(x) for x in l]] with a fallible [f]: the first failure wins.
    [f] is fixed outside the recursion, so that [traverse] can be used
    in recursive definitions over trees. *)
Section Traverse.
Context {A B : Type} (f : A -> result B).

Definition traverse : list A -> result (list B) :=
  fix go (l : list A) : result (list B) :=
    match l with
    | [] => Ok []
    | x :: l' => (let* y := f x in let* ys := go l' in Ok (y :: ys))%result
    end.
End Traverse.

(** ** TensorFlow data: dtypes, static shapes, tensors, queues *)

Inductive dtype := float32 | float64 | int32 | int64 | uint8 | tf_bool | tf_string.

#[global] Instance dtype_eq_dec : EqDecision dtype.
Proof. solve_decision. Defined.

(** A dimension is known or not; a [TensorShape] has known rank or not. *)
Definition Dimension := option nat.
Definition TensorShape := option (list Dimension).

Definition unknown_shape : TensorShape := None.

(** A tensor of the graph.  [Output] is the output of an op this module
    does not look into (a placeholder, a dequeue, whatever the model
    function or the optimizer built); the next three are the ops
    [average_gradients] creates, the last is the one of [summary_grads]. *)
Inductive Tensor :=
| Output (name : string) (dt : dtype) (shape : TensorShape)
| ExpandDims (input : Tensor) (dim : nat)
| Concat (concat_dim : nat) (values : list Tensor)
| ReduceMean (input : Tensor) (reduction_indices : nat)
| HistogramSummary (tag : string) (values : Tensor).

Inductive queue_kind := FIFOQueueKind | RandomShuffleQueueKind.

(** [tf.QueueBase]: [shapes] holds one static shape per component,
    [unknown_shape] where the queue was built without shapes. *)
Record QueueBase := {
  q_kind : queue_kind;
  q_capacity : Z;
  q_dtypes : list dtype;
  q_shapes : list TensorShape;
  q_name : string
}.

(** [tf.FIFOQueue(capacity, dtypes, name=name)] *)
Definition FIFOQueue (capacity : Z) (dtypes : list dtype) (name : string) : QueueBase :=
  {| q_kind := FIFOQueueKind; q_capacity := capacity; q_dtypes := dtypes;
     q_shapes := map (fun _ => unknown_shape) dtypes; q_name := name |}.

(** The call [tf.FIFOQueue(capacity, dtypes, name=name)] itself: the
    queue op takes at least one component type. *)
Definition new_FIFOQueue (capacity : Z) (dtypes : list dtype) (name : string)
  : result QueueBase :=
  match dtypes with
  | [] => Raise ValueError
  | _ :: _ => Ok (FIFOQueue capacity dtypes name)
  end.

(** ** The objects a configuration is made of *)

Record DataFlow := { df_name : string; df_size : Z }.
Inductive Optimizer := AdamOptimizer | OtherOptimizer (name : string).
Inductive Callbacks := MkCallbacks (names : list string).
Inductive ConfigProto := default_sess_config | OtherConfigProto (name : string).
Inductive SessionInit := NewSession | OtherSessionInit (name : string).

(** The Python values that can sit in [**kwargs]. *)
Inductive pyobj :=
| PyNone
| PyBool (b : bool)
| PyInt (z : Z)
| PyList (l : list pyobj)
| PyTensor (t : Tensor)
| PyDataFlow (d : DataFlow)
| PyOptimizer (o : Optimizer)
| PyCallbacks (c : Callbacks)
| PyConfigProto (c : ConfigProto)
| PySessionInit (s : SessionInit)
| PyQueue (q : QueueBase)
| PyFunc (name : string).

(** [int(v)] *)
Definition py_int (v : pyobj) : result Z :=
  match v with
  | PyInt z => Ok z
  | PyBool b => Ok (if b then 1 else 0)
  | _ => Raise TypeError
  end.

(** Truth value of an object, as [if v:] takes it. *)
Definition truthy (v : pyobj) : bool :=
  match v with
  | PyNone => false
  | PyBool b => b
  | PyInt z => negb (z =? 0)%Z
  | PyList l => match l with [] => false | _ => true end
  | _ => true
  end.

(** ** TrainConfig *)

Record TrainConfig := {
  dataset : DataFlow;
  optimizer : Optimizer;
  callbacks : Callbacks;
  session_config : ConfigProto;
  session_init : SessionInit;
  inputs : list Tensor;
  input_queue : QueueBase;
  get_model_func : pyobj;
  batched_model_input : pyobj;
  step_per_epoch : Z;
  max_epoch : Z;
  nr_tower : Z
}.

(** The configuration [c] with [config.nr_tower = n]. *)
Definition with_nr_tower (n : Z) (c : TrainConfig) : TrainConfig :=
  {| dataset := dataset c; optimizer := optimizer c; callbacks := callbacks c;
     session_config := session_config c; session_init := session_init c;
     inputs := inputs c; input_queue := input_queue c;
     get_model_func := get_model_func c;
     batched_model_input := batched_model_input c;
     step_per_epoch := step_per_epoch c; max_epoch := max_epoch c;
     nr_tower := n |}.

Module Config.

(** [kwargs.pop(key)] *)
Definition pop (key : string) (kwargs : gmap string pyobj)
  : result (pyobj * gmap string pyobj) :=
  match kwargs !! key with
  | Some v => Ok (v, delete key kwargs)
  | None => Raise (KeyError key)
  end.

(** [kwargs.pop(key, default)] *)
Definition pop_default (key : string) (default : pyobj) (kwargs : gmap string pyobj)
  : pyobj * gmap string pyobj :=
  match kwargs !! key with
  | Some v => (v, delete key kwargs)
  | None => (default, kwargs)
  end.

(** [assert_type(v, tp)], one function per class tested. *)
Definition as_DataFlow (v : pyobj) : result DataFlow :=
  match v with PyDataFlow d => Ok d | _ => Raise AssertionError end.
Definition as_Optimizer (v : pyobj) : result Optimizer :=
  match v with PyOptimizer o => Ok o | _ => Raise AssertionError end.
Definition as_Callbacks (v : pyobj) : result Callbacks :=
  match v with PyCallbacks c => Ok c | _ => Raise AssertionError end.
Definition as_ConfigProto (v : pyobj) : result ConfigProto :=
  match v with PyConfigProto c => Ok c | _ => Raise AssertionError end.
Definition as_SessionInit (v : pyobj) : result SessionInit :=
  match v with PySessionInit s => Ok s | _ => Raise AssertionError end.
Definition as_Tensor (v : pyobj) : result Tensor :=
  match v with PyTensor t => Ok t | _ => Raise AssertionError end.
Definition as_QueueBase (v : pyobj) : result QueueBase :=
  match v with PyQueue q => Ok q | _ => Raise AssertionError end.

(** Iterating over [self.inputs]: only a list can be iterated. *)
Definition iterate (v : pyobj) : result (list pyobj) :=
  match v with PyList l => Ok l | _ => Raise TypeError end.

(** [x.dtype] *)
Fixpoint dtype_of (t : Tensor) : dtype :=
  match t with
  | Output _ dt _ => dt
  | ExpandDims input _ => dtype_of input
  | Concat _ values => match values with v :: _ => dtype_of v | [] => float32 end
  | ReduceMean input _ => dtype_of input
  | HistogramSummary _ _ => tf_string
  end.

(** [TrainConfig.__init__], statement by statement.  The
    default of each [pop] is built before the [pop] looks the key up, as
    Python evaluates arguments first. *)
Definition init (kwargs : gmap string pyobj) : result TrainConfig :=
  (let* (v, kwargs) := pop "dataset" kwargs in
   let* dataset := as_DataFlow v in
   let '(v, kwargs) := pop_default "optimizer" (PyOptimizer AdamOptimizer) kwargs in
   let* optimizer := as_Optimizer v in
   let* (v, kwargs) := pop "callbacks" kwargs in
   let* callbacks := as_Callbacks v in
   let '(v, kwargs) := pop_default "session_config" (PyConfigProto default_sess_config) kwargs in
   let* session_config := as_ConfigProto v in
   let '(v, kwargs) := pop_default "session_init" (PySessionInit NewSession) kwargs in
   let* session_init := as_SessionInit v in
   let* (v, kwargs) := pop "inputs" kwargs in
   let* items := iterate v in
   let* inputs := traverse as_Tensor items in
   let* default_queue := new_FIFOQueue 5 (map dtype_of inputs) "input_queue" in
   let '(v, kwargs) := pop_default "input_queue" (PyQueue default_queue) kwargs in
   let* input_queue := as_QueueBase v in
   let* _ := assert (bool_decide (q_dtypes input_queue = map dtype_of inputs)) in
   let* (get_model_func, kwargs) := pop "get_model_func" kwargs in
   let '(batched_model_input, kwargs) :=
     pop_default "batched_model_input" (PyBool true) kwargs in
   let '(v, kwargs) := pop_default "step_per_epoch" (PyInt (df_size dataset)) kwargs in
   let* step_per_epoch := py_int v in
   let '(v, kwargs) := pop_default "max_epoch" (PyInt 100) kwargs in
   let* max_epoch := py_int v in
   let* _ := assert ((0 <? step_per_epoch)%Z && (0 <? max_epoch)%Z) in
   let '(v, kwargs) := pop_default "nr_tower" (PyInt 1) kwargs in
   let* nr_tower := py_int v in
   let* _ := assert (bool_decide (size kwargs = 0%nat)) in
   Ok {| dataset := dataset; optimizer := optimizer; callbacks := callbacks;
         session_config := session_config; session_init := session_init;
         inputs := inputs; input_queue := input_queue;
         get_model_func := get_model_func;
         batched_model_input := batched_model_input;
         step_per_epoch := step_per_epoch; max_epoch := max_epoch;
         nr_tower := nr_tower |})%result.

(** The keyword arguments [__init__] knows. *)
Definition known_keys : list string :=
  ["dataset"; "optimizer"; "callbacks"; "session_config"; "session_init";
   "inputs"; "input_queue"; "get_model_func"; "batched_model_input";
   "step_per_epoch"; "max_epoch"; "nr_tower"].

(** What a successful construction tells about the arguments. *)
Record constructed (kwargs : gmap string pyobj) (c : TrainConfig) : Prop := {
  c_dataset : kwargs !! "dataset" = Some (PyDataFlow (dataset c));
  c_inputs : exists items, kwargs !! "inputs" = Some (PyList items)
                           /\ traverse as_Tensor items = Ok (inputs c);
  c_queue : default (PyQueue (FIFOQueue 5 (map dtype_of (inputs c)) "input_queue"))
                    (kwargs !! "input_queue") = PyQueue (input_queue c);
  c_dtypes : q_dtypes (input_queue c) = map dtype_of (inputs c);
  c_step : py_int (default (PyInt (df_size (dataset c))) (kwargs !! "step_per_epoch"))
           = Ok (step_per_epoch c);
  c_epoch : py_int (default (PyInt 100) (kwargs !! "max_epoch")) = Ok (max_epoch c);
  c_tower : py_int (default (PyInt 1) (kwargs !! "nr_tower")) = Ok (nr_tower c);
  c_positive : (0 < step_per_epoch c)%Z /\ (0 < max_epoch c)%Z;
  c_known : forall k, is_Some (kwargs !! k) -> k ∈ known_keys
}.

End Config.

(** ** Values of tensors: row-major arrays of rationals *)

(** The elements are rationals and the arithmetic on them is exact:
    what a kernel computes in floating point agrees with it up to
    rounding, which is outside this development. *)

Module Numeric.

Record ndarray := { shape : list nat; data : list Q }.

(** Number of elements of a shape. *)
Definition numel (s : list nat) : nat := fold_right Nat.mul 1%nat s.

Definition well_formed (v : ndarray) : Prop :=
  length (data v) = numel (shape v).

(** Tensors of one shape, with as many elements as the shape says. *)
Definition all_of_shape (s : list nat) (vals : list ndarray) : Prop :=
  Forall (fun v => shape v = s /\ well_formed v) vals.

Definition Qsum (l : list Q) : Q := fold_right Qplus 0%Q l.

Definition Qnat (n : nat) : Q := inject_Z (Z.of_nat n).

(** [tf.expand_dims(v, dim)]: a dimension of size one is put at [dim];
    the row-major data is untouched. *)
Definition expand_dims (v : ndarray) (dim : nat) : result ndarray :=
  if (dim <=? length (shape v))%nat
  then Ok {| shape := take dim (shape v) ++ 1%nat :: drop dim (shape v);
             data := data v |}
  else Raise ValueError.

(** Two shapes that differ at most in dimension [d]. *)
Definition same_except (d : nat) (s1 s2 : list nat) : bool :=
  bool_decide (length s1 = length s2) &&
  bool_decide (take d s1 = take d s2) &&
  bool_decide (drop (S d) s1 = drop (S d) s2).

(** [tf.concat(concat_dim, values)]: for each index of the outer
    dimensions, the blocks of the values follow one another. *)
Definition concat (d : nat) (values : list ndarray) : result ndarray :=
  match values with
  | [] => Raise ValueError
  | v0 :: _ =>
    if (d <? length (shape v0))%nat && forallb (fun v => same_except d (shape v0) (shape v)) values
    then
      let outer := numel (take d (shape v0)) in
      let block v := numel (drop d (shape v)) in
      Ok {| shape := take d (shape v0)
                     ++ list_sum (map (fun v => nth d (shape v) 0%nat) values)
                     :: drop (S d) (shape v0);
            data := flat_map (fun o =>
                      flat_map (fun v => take (block v) (drop (o * block v) (data v))) values)
                      (seq 0 outer) |}
    else Raise ValueError
  end.

(** [tf.reduce_mean(v, axis)]: the mean over dimension [axis], which
    disappears from the shape. *)
Definition reduce_mean (v : ndarray) (axis : nat) : result ndarray :=
  if (axis <? length (shape v))%nat
  then
    let outer := numel (take axis (shape v)) in
    let n := nth axis (shape v) 0%nat in
    let inner := numel (drop (S axis) (shape v)) in
    Ok {| shape := take axis (shape v) ++ drop (S axis) (shape v);
          data := flat_map (fun o =>
                    map (fun i =>
                      (Qsum (map (fun k => nth ((o * n + k) * inner + i) (data v) 0%Q)
                                 (seq 0 n)) / Qnat n)%Q)
                      (seq 0 inner))
                    (seq 0 outer) |}
  else Raise ValueError.

(** The mean the specification writes: at every element,
    [(g_1 + ... + g_N) / N]. *)
Definition mean_of (s : list nat) (gs : list ndarray) : ndarray :=
  {| shape := s;
     data := map (fun j => (Qsum (map (fun g => nth j (data g) 0%Q) gs)
                            / Qnat (length gs))%Q)
                 (seq 0 (numel s)) |}.

End Numeric.

(** ** The value of a graph tensor *)

(** The environment gives the value of each [Output] by name.  A summary
    is a serialized string, not an array. *)
Fixpoint eval (env : string -> result Numeric.ndarray) (t : Tensor)
  : result Numeric.ndarray :=
  match t with
  | Output name _ _ => env name
  | ExpandDims input dim =>
      (let* v := eval env input in Numeric.expand_dims v dim)%result
  | Concat d values =>
      (let* vs := traverse (eval env) values in Numeric.concat d vs)%result
  | ReduceMean input axis =>
      (let* v := eval env input in Numeric.reduce_mean v axis)%result
  | HistogramSummary _ _ => Raise TypeError
  end.

(** ** Static shapes *)

(** [TensorShape.as_list()] *)
Definition as_list (s : TensorShape) : result (list Dimension) :=
  match s with
  | Some dims => Ok dims
  | None => Raise ValueError
  end.

Definition merge_dim (a b : Dimension) : result Dimension :=
  match a, b with
  | None, _ => Ok b
  | _, None => Ok a
  | Some m, Some n => if (m =? n)%nat then Ok a else Raise ValueError
  end.

(** [TensorShape.merge_with(other)] *)
Definition merge_with (s1 s2 : TensorShape) : result TensorShape :=
  match s1, s2 with
  | None, _ => Ok s2
  | _, None => Ok s1
  | Some l1, Some l2 =>
    if (length l1 =? length l2)%nat
    then (let* l := traverse (fun '(a, b) => merge_dim a b) (zip l1 l2) in
          Ok (Some l))%result
    else Raise ValueError
  end.

Definition sum_dims (ds : list Dimension) : Dimension :=
  fold_right (fun d acc => match d, acc with
                           | Some m, Some n => Some (m + n)%nat
                           | _, _ => None
                           end) (Some 0%nat) ds.

(** [t.get_shape()]: the declared shape of an [Output]; for the ops of
    this module, what shape inference gives when every rank is known. *)
Fixpoint get_shape (t : Tensor) : TensorShape :=
  match t with
  | Output _ _ s => s
  | ExpandDims input dim =>
      dims ← get_shape input; Some (take dim dims ++ Some 1%nat :: drop dim dims)
  | Concat d values =>
      match map get_shape values with
      | Some dims :: rest =>
          column ← mapM (fun s => dims' ← s; dims' !! d) (Some dims :: rest);
          Some (take d dims ++ sum_dims column :: drop (S d) dims)
      | _ => None
      end
  | ReduceMean input axis =>
      dims ← get_shape input; Some (take axis dims ++ drop (S axis) dims)
  | HistogramSummary _ _ => Some []
  end.

(** [t.set_shape(s)] on the output of an op: the shape is merged into
    the one the tensor has. *)
Definition set_shape (t : Tensor) (s : TensorShape) : result Tensor :=
  match t with
  | Output name dt s0 => (let* m := merge_with s0 s in Ok (Output name dt m))%result
  | _ => (let* _ := merge_with (get_shape t) s in Ok t)%result
  end.

(** ** Gradients *)

(** A trainable variable, known by [var.op.name]. *)
Record Variable_ := { var_op_name : string }.

(** What [compute_gradients] returns: a gradient, [None] where the loss
    does not depend on the variable, with its variable. *)
Definition GradientSet := list (option Tensor * Variable_).

(** [zip( *lists )] of Python 2: the rows of the transposition, as many
    as the shortest list has elements; none for no list at all. *)
Fixpoint zip_star {A} (lists : list (list A)) : list (list A) :=
  match lists with
  | [] => []
  | l :: rest =>
    match rest with
    | [] => map (fun x => [x]) l
    | _ :: _ => zip_with cons l (zip_star rest)
    end
  end.

(** [tf.expand_dims(g, dim)] when the graph is built: [None] is no
    tensor and cannot be converted to one. *)
Definition tf_expand_dims (g : option Tensor) (dim : nat) : result Tensor :=
  match g with
  | Some t => Ok (ExpandDims t dim)
  | None => Raise ValueError
  end.

(** [tf.concat] and [tf.reduce_mean] add nodes to the graph; that the
    parts of a [Concat] agree in shape is checked where the node is
    evaluated ([Numeric.concat]), not here, so a return of this
    function speaks for gradients whose static shapes and dtypes
    [tf.concat] accepts. *)
Definition average_gradients (tower_grads : list GradientSet) : result GradientSet :=
  traverse (fun grad_and_vars : list (option Tensor * Variable_) =>
    (let* grads := traverse (fun gv => tf_expand_dims (fst gv) 0) grad_and_vars in
     let grad := Concat 0 grads in
     let grad := ReduceMean grad 0 in
     match grad_and_vars with
     | gv0 :: _ => Ok (Some grad, snd gv0)
     | [] => Raise IndexError
     end)%result)
    (zip_star tower_grads).

(** ** The graph under construction *)

Record Graph := {
  collections : gmap string (list pyobj);
  reuse : bool;
  device : string;
  name_scope : string
}.

Definition SUMMARIES : string := "summaries".

(** [tf.get_collection(k)] *)
Definition get_collection (k : string) (g : Graph) : list pyobj :=
  default [] (collections g !! k).

Definition set_collection (k : string) (l : list pyobj) (g : Graph) : Graph :=
  {| collections := <[k := l]> (collections g); reuse := reuse g;
     device := device g; name_scope := name_scope g |}.

(** [tf.add_to_collection(k, v)] *)
Definition add_to_collection (k : string) (v : pyobj) (g : Graph) : Graph :=
  set_collection k (get_collection k g ++ [v]) g.

(** [tf.get_variable_scope().reuse_variables()] *)
Definition reuse_variables (g : Graph) : Graph :=
  {| collections := collections g; reuse := true;
     device := device g; name_scope := name_scope g |}.

(** Entering [with tf.device(dev):] and [with tf.name_scope(scope):],
    and leaving both for the graph state [outer] they were entered
    from. *)
Definition enter_scope (dev scope : string) (g : Graph) : Graph :=
  {| collections := collections g; reuse := reuse g;
     device := dev; name_scope := name_scope g +:+ scope +:+ "/" |}.

Definition leave_scope (outer : Graph) (g : Graph) : Graph :=
  {| collections := collections g; reuse := reuse g;
     device := device outer; name_scope := name_scope outer |}.

(** [tf.histogram_summary(tag, values)]: the summary goes to the
    [SUMMARIES] collection. *)
Definition histogram_summary (tag : string) (values : Tensor) (g : Graph) : Graph :=
  add_to_collection SUMMARIES (PyTensor (HistogramSummary tag values)) g.

(** [if grad:] is taken when [grad] is a tensor and not when it is
    [None]. *)
Definition summary_grads (grads : GradientSet) (g : Graph) : Graph :=
  fold_left (fun g gv =>
    match fst gv with
    | Some grad => histogram_summary (var_op_name (snd gv) +:+ "/gradients") grad g
    | None => g
    end) grads g.

(** ** Operations and fetches *)

Inductive Operation :=
| QueueEnqueue (q : QueueBase) (vals : list Tensor)
| QueueEnqueueMany (q : QueueBase) (vals : list Tensor)
| ApplyGradients (opt : Optimizer) (grads_and_vars : GradientSet)
                 (global_step : Tensor) (control_inputs : list Operation)
| ExternalOp (name : string).

Inductive fetch :=
| FetchOp (o : Operation)
| FetchTensor (t : Tensor).

(** What the module imports and calls without defining it: the three
    collection keys of [utils], the model function behind
    [config.get_model_func], the optimizer's gradient rule, and the
    helpers of [utils.summary] and [utils]. Each may add to the graph. *)
Class Externals := {
  FORWARD_FUNC_KEY : string;
  INPUT_VARS_KEY : string;
  MOVING_SUMMARY_VARS_KEY : string;
  call_model_func :
    pyobj -> list Tensor -> bool -> Graph -> result (list Tensor * Tensor * Graph);
  compute_gradients : Optimizer -> Tensor -> Graph -> result (GradientSet * Graph);
  summary_moving_average : Tensor -> Graph -> result (Operation * Graph);
  get_global_step_var : Graph -> result (Tensor * Graph);
  describe_model : Graph -> result Graph
}.

(** ** start_train, first half: building the graph *)

Section Build.
Context `{Ext : Externals}.
Variable config : TrainConfig.

(** [input_queue.dequeue()]: one output per component of the queue,
    with the static shape the queue has for it. *)
Definition dequeue (q : QueueBase) (scope : string) : list Tensor :=
  imap (fun i dt =>
          Output (scope +:+ q_name q +:+ "_Dequeue:" +:+ pretty i) dt
                 (default unknown_shape (q_shapes q !! i)))
       (q_dtypes q).

(** The shape [get_model_inputs] gives to the element dequeued for
    the input variable [v]. *)
Definition model_input_shape (v : Tensor) : result TensorShape :=
  if truthy (batched_model_input config)
  then Ok (get_shape v)
  else (let* dims := as_list (get_shape v) in Ok (Some (tail dims)))%result.

(** A queue of one component dequeues to the tensor itself, not to a
    list of one tensor, and a tensor cannot be iterated by [zip]. *)
Definition get_model_inputs (g : Graph) : result (list Tensor) :=
  let model_inputs := dequeue (input_queue config) (name_scope g) in
  match model_inputs with
  | [_] => Raise TypeError
  | _ =>
    (let* shaped :=
       traverse (fun qv_v : Tensor * Tensor =>
                   let* s := model_input_shape (snd qv_v) in
                   set_shape (fst qv_v) s)
                (zip model_inputs (inputs config)) in
     Ok (shaped ++ drop (length (inputs config)) model_inputs))%result
  end.

Definition enqueue_op : Operation :=
  if truthy (batched_model_input config)
  then QueueEnqueue (input_queue config) (inputs config)
  else QueueEnqueueMany (input_queue config) (inputs config).

Definition coll_keys : list string := [SUMMARIES; MOVING_SUMMARY_VARS_KEY].

(** The local variables the tower loop assigns. *)
Record locals := {
  kept_summaries : gmap string (list pyobj);
  grads : list GradientSet;
  model_inputs : list Tensor;
  output_vars : list Tensor;
  cost_var : option Tensor
}.

Definition no_locals : locals :=
  {| kept_summaries := ∅; grads := []; model_inputs := [];
     output_vars := []; cost_var := None |}.

(** One replica: dequeue, model, gradients. *)
Definition replica (g : Graph)
  : result (list Tensor * list Tensor * Tensor * GradientSet * Graph) :=
  (let* model_inputs := get_model_inputs g in
   let* (output_vars, cost_var, g) :=
     call_model_func (get_model_func config) model_inputs true g in
   let* (gs, g) := compute_gradients (optimizer config) cost_var g in
   Ok (model_inputs, output_vars, cost_var, gs, g))%result.

(** The body of [for i in range(config.nr_tower)]. *)
Definition tower (st : locals * Graph) (i : nat) : result (locals * Graph) :=
  let '(loc, outer) := st in
  let g := enter_scope ("/gpu:" +:+ pretty i) ("tower" +:+ pretty i) outer in
  (let* (model_inputs, output_vars, cost_var, gs, g) := replica g in
   let grads := grads loc ++ [gs] in
   let '(kept, g) :=
     if (i =? 0)%nat
     then
       let g := reuse_variables g in
       (fold_left (fun kept k => <[k := get_collection k g]> kept)
                  coll_keys (kept_summaries loc), g)
     else (kept_summaries loc, g) in
   Ok ({| kept_summaries := kept; grads := grads; model_inputs := model_inputs;
          output_vars := output_vars; cost_var := Some cost_var |},
       leave_scope outer g))%result.

(** A [for] loop whose body can raise. *)
Definition for_each {S X} (body : S -> X -> result S) : list X -> S -> result S :=
  fix go (l : list X) (s : S) : result S :=
    match l with
    | [] => Ok s
    | x :: l' => (let* s := body s x in go l' s)%result
    end.

(** [range(n)] *)
Definition range (n : Z) : list nat := seq 0 (Z.to_nat n).

(** [del tf.get_collection(k)[:]] then [.extend(kept_summaries[k])],
    for each key; [tf.get_collection] hands out the list the graph
    holds, so both change the collection itself. *)
Definition restore_summaries (kept : gmap string (list pyobj)) (g : Graph)
  : result Graph :=
  for_each (fun g k =>
    match kept !! k with
    | Some l =>
        let g := set_collection k [] g in
        Ok (set_collection k (get_collection k g ++ l) g)
    | None => Raise (KeyError k)
    end) coll_keys g.

(** Lines 137 to 160: the gradients to update, with the model
    inputs, outputs and cost the names are bound to afterwards. *)
Definition build_towers (g : Graph)
  : result (GradientSet * list Tensor * list Tensor * Tensor * Graph) :=
  if (1 <? nr_tower config)%Z
  then
    (let* (loc, g) := for_each tower (range (nr_tower config)) (no_locals, g) in
     let* g := restore_summaries (kept_summaries loc) g in
     let* gs := average_gradients (grads loc) in
     match cost_var loc with
     | Some cost_var => Ok (gs, model_inputs loc, output_vars loc, cost_var, g)
     | None => Raise TypeError
     end)%result
  else
    (let* (model_inputs, output_vars, cost_var, gs, g) := replica g in
     Ok (gs, model_inputs, output_vars, cost_var, g))%result.

(** What the step loop needs from the graph. *)
Record Built := {
  b_enqueue_op : Operation;
  b_grads : GradientSet;
  b_train_op : Operation;
  b_cost_var : Tensor;
  b_output_vars : list Tensor;
  b_model_inputs : list Tensor;
  b_graph : Graph
}.

(** Lines 117 to 119. *)
Definition register_model (g : Graph) : Graph :=
  let g := add_to_collection FORWARD_FUNC_KEY (get_model_func config) g in
  fold_left (fun g v => add_to_collection INPUT_VARS_KEY (PyTensor v) g)
            (inputs config) g.

(** Lines 113 to 167. *)
Definition build_graph (g : Graph) : result Built :=
  let g := register_model g in
  let enqueue := enqueue_op in
  (let* (gs, model_inputs, output_vars, cost_var, g) := build_towers g in
   let g := summary_grads gs g in
   let* (avg_maintain_op, g) := summary_moving_average cost_var g in
   let* (global_step, g) := get_global_step_var g in
   let train_op := ApplyGradients (optimizer config) gs global_step [avg_maintain_op] in
   let* g := describe_model g in
   Ok {| b_enqueue_op := enqueue; b_grads := gs; b_train_op := train_op;
         b_cost_var := cost_var; b_output_vars := output_vars;
         b_model_inputs := model_inputs; b_graph := g |})%result.

End Build.

(** ** start_train, second half: the step loop *)

(** The session and the coordinator, seen from the training thread.
    One [execute] is one [Session.run]: it gives the value of every
    fetch in that run and the session afterwards.  [should_stop n] is
    what the coordinator answers to the poll that [n] polls preceded;
    who set the flag, and when, is up to the other threads. *)
Class Runtime := {
  value : Type;
  session : Type;
  new_session : TrainConfig -> Graph -> session;
  execute : session -> list fetch -> (fetch -> value) * session;
  should_stop : nat -> bool
}.

(** [l[lo:hi]] for [0 <= lo], [0 <= hi]. *)
Definition slice {A} (l : list A) (lo hi : nat) : list A :=
  take (hi - lo) (drop lo l).

(** [l[-n:]] for [0 <= n]: [-0] is [0], so [l[-0:]] is all of [l]. *)
Definition slice_last {A} (l : list A) (n : nat) : list A :=
  match n with
  | O => l
  | S _ => drop (length l - n) l
  end.

Section Loop.
Context `{RT : Runtime}.

(** [sess.run(fetches)]: the values, in the order of the fetches. *)
Definition sess_run (s : session) (fetches : list fetch) : list value * session :=
  let '(val, s') := execute s fetches in (map val fetches, s').

(** What the training thread does that others can see. *)
Inductive event :=
| BeforeTrain
| ShouldStop (answer : bool)
| Run (fetches : list fetch)
| TriggerStep (inputs outputs : list value) (cost : value)
| TriggerEpoch.

(** How the loops end: they run out, [return] is executed, or an
    exception leaves them. *)
Inductive outcome :=
| Completed
| Returned
| Raised (e : exn).

Record world := { w_session : session; w_polls : nat }.

Variable config : TrainConfig.
Variable built : Built.

Definition fetches : list fetch :=
  [FetchOp (b_train_op built); FetchTensor (b_cost_var built)]
    ++ map FetchTensor (b_output_vars built)
    ++ map FetchTensor (b_model_inputs built).

(** [for step in tqdm.trange(config.step_per_epoch)] *)
Fixpoint step_loop (steps : list nat) (w : world) : list event * outcome * world :=
  match steps with
  | [] => ([], Completed, w)
  | _ :: steps' =>
    let stop := should_stop (w_polls w) in
    let w := {| w_session := w_session w; w_polls := S (w_polls w) |} in
    if stop then ([ShouldStop true], Returned, w)
    else
      let '(results, s') := sess_run (w_session w) fetches in
      let w := {| w_session := s'; w_polls := w_polls w |} in
      match results !! 1%nat with
      | None => ([ShouldStop false; Run fetches], Raised IndexError, w)
      | Some cost =>
        let outputs := slice results 2 (2 + length (b_output_vars built)) in
        let inputs := slice_last results (length (b_model_inputs built)) in
        let '(evs, out, w) := step_loop steps' w in
        (ShouldStop false :: Run fetches :: TriggerStep inputs outputs cost :: evs,
         out, w)
      end
  end.

(** [xrange(lo, hi)] *)
Definition xrange (lo hi : Z) : list Z :=
  map (fun i => lo + Z.of_nat i) (seq 0 (Z.to_nat (hi - lo))).

(** [for epoch in xrange(1, config.max_epoch)] *)
Fixpoint epoch_loop (epochs : list Z) (w : world) : list event * outcome * world :=
  match epochs with
  | [] => ([], Completed, w)
  | _ :: epochs' =>
    let '(evs, out, w) := step_loop (range (step_per_epoch config)) w in
    match out with
    | Completed =>
      let '(evs', out', w) := epoch_loop epochs' w in
      (evs ++ TriggerEpoch :: evs', out', w)
    | _ => (evs, out, w)
    end
  end.

(** Lines 182 to 199. *)
Definition train_loop (w : world) : list event * outcome * world :=
  let '(evs, out, w) := epoch_loop (xrange 1 (max_epoch config)) w in
  (BeforeTrain :: evs, out, w).

(** Counting in a trace. *)
Definition is_run (e : event) : bool :=
  match e with Run _ => true | _ => false end.
Definition is_trigger_step (e : event) : bool :=
  match e with TriggerStep _ _ _ => true | _ => false end.
Definition is_trigger_epoch (e : event) : bool :=
  match e with TriggerEpoch => true | _ => false end.
Definition count (p : event -> bool) (tr : list event) : nat :=
  length (List.filter p tr).

(** Nothing follows a poll that the coordinator answered with stop,
    and the function has returned. *)
Definition nothing_after_stop (tr : list event) (out : outcome) : Prop :=
  forall pre post, tr = pre ++ ShouldStop true :: post ->
                   post = [] /\ out = Returned.

(** Every run comes right after a poll answered with go-on and is
    followed at once by its [trigger_step]. *)
Definition runs_are_whole_steps (tr : list event) : Prop :=
  forall pre fs post, tr = pre ++ Run fs :: post ->
    (exists pre', pre = pre' ++ [ShouldStop false]) /\
    (exists ins outs cost post', post = TriggerStep ins outs cost :: post').

End Loop.

(** ** The queue at run time *)

(** The slices of a value along its first dimension. *)
Definition unstack (v : Numeric.ndarray) : result (list Numeric.ndarray) :=
  match Numeric.shape v with
  | [] => Raise ValueError
  | n :: s =>
    Ok (map (fun k =>
               {| Numeric.shape := s;
                  Numeric.data := take (Numeric.numel s)
                                       (drop (k * Numeric.numel s) (Numeric.data v)) |})
            (seq 0 n))
  end.

(** The records that one run of an enqueue op appends to its queue,
    given the values fed for its inputs.  [enqueue] appends the values
    as one record.  [enqueue_many] slices every value along dimension
    0, in the same number of slices for all, and appends one record per
    slice. *)
Definition enqueued_records (op : Operation) (vals : list Numeric.ndarray)
  : result (list (list Numeric.ndarray)) :=
  match op with
  | QueueEnqueue _ _ => Ok [vals]
  | QueueEnqueueMany _ _ =>
    (let* columns := traverse unstack vals in
     match columns with
     | [] => Raise ValueError
     | c0 :: _ =>
       if forallb (fun c => (length c =? length c0)%nat) columns
       then Ok (zip_star columns)
       else Raise ValueError
     end)%result
  | _ => Raise TypeError
  end.

(** [start_train(config)] *)
Definition start_train `{Ext : Externals} `{RT : Runtime}
    (config : TrainConfig) (g : Graph)
  : result (list event * outcome * world) :=
  (let* built := build_graph config g in
   let w := {| w_session := new_session config (b_graph built); w_polls := 0 |} in
   Ok (train_loop config built w))%result.

(** ** A small configuration to run the definitions on *)

Module Examples.

Definition image : Tensor := Output "image" float32 (Some [None; Some 28; Some 28]%nat).
Definition label : Tensor := Output "label" int32 (Some [None]).

Definition mnist : DataFlow := {| df_name := "mnist"; df_size := 3 |}.

Definition base_kwargs : gmap string pyobj :=
  <["dataset" := PyDataFlow mnist]>
  (<["callbacks" := PyCallbacks (MkCallbacks ["SummaryWriter"; "PeriodicSaver"])]>
  (<["inputs" := PyList [PyTensor image; PyTensor label]]>
  (<["get_model_func" := PyFunc "get_model"]> ∅))).

Definition kwargs (epochs towers : Z) : gmap string pyobj :=
  <["max_epoch" := PyInt epochs]> (<["nr_tower" := PyInt towers]> base_kwargs).

Definition config_of (epochs towers : Z) (batched : pyobj) : TrainConfig :=
  {| dataset := mnist; optimizer := AdamOptimizer;
     callbacks := MkCallbacks ["SummaryWriter"; "PeriodicSaver"];
     session_config := default_sess_config; session_init := NewSession;
     inputs := [image; label];
     input_queue := FIFOQueue 5 [float32; int32] "input_queue";
     get_model_func := PyFunc "get_model";
     batched_model_input := batched;
     step_per_epoch := 3; max_epoch := epochs; nr_tower := towers |}.

Definition W : Variable_ := {| var_op_name := "fc/W" |}.
Definition b : Variable_ := {| var_op_name := "fc/b" |}.

(** A model with one output and two variables; it registers one
    summary per replica.  With [frozen_b] the loss does not depend on
    [b]. *)
Definition toy_model (frozen_b : bool) : Externals :=
  {| FORWARD_FUNC_KEY := "FORWARD_FUNC";
     INPUT_VARS_KEY := "INPUT_VARIABLES";
     MOVING_SUMMARY_VARS_KEY := "MOVING_SUMMARY_VARIABLES";
     call_model_func := fun f ins is_training g =>
       match f with
       | PyFunc _ =>
         let scope := name_scope g in
         let cost := Output (scope +:+ "cost") float32 (Some []) in
         Ok ([Output (scope +:+ "prob") float32 unknown_shape], cost,
             add_to_collection "MOVING_SUMMARY_VARIABLES" (PyTensor cost)
               (add_to_collection SUMMARIES
                  (PyTensor (Output (scope +:+ "activation_summary") tf_string (Some [])))
                  g))
       | _ => Raise TypeError
       end;
     compute_gradients := fun opt cost g =>
       let scope := name_scope g in
       Ok ([(Some (Output (scope +:+ "gradients/W") float32 (Some [Some 2%nat])), W);
            (if frozen_b then None
             else Some (Output (scope +:+ "gradients/b") float32 (Some [Some 1%nat])), b)],
           g);
     summary_moving_average := fun cost g =>
       Ok (ExternalOp "moving_average", g);
     get_global_step_var := fun g => Ok (Output "global_step" int32 (Some []), g);
     describe_model := fun g => Ok g |}.

Definition empty_graph : Graph :=
  {| collections := ∅; reuse := false; device := ""; name_scope := "" |}.

(** A runtime whose values say which fetch they are the value of, and
    of which execution. *)
Definition toy_runtime (stop : nat -> bool) : Runtime :=
  {| value := nat * fetch;
     session := nat;
     new_session := fun _ _ => 0%nat;
     execute := fun s fs => (fun f => (s, f), S s);
     should_stop := stop |}.

Definition never (n : nat) : bool := false.
Definition from (k n : nat) : bool := (k <=? n)%nat.

Definition toy_built : Built :=
  {| b_enqueue_op := ExternalOp "enqueue"; b_grads := [];
     b_train_op := ExternalOp "train_op";
     b_cost_var := Output "cost" float32 (Some []);
     b_output_vars := [Output "prob" float32 unknown_shape];
     b_model_inputs := [image; label];
     b_graph := empty_graph |}.

(** Two towers, one variable of two elements. *)
Definition g1 : Numeric.ndarray := {| Numeric.shape := [2%nat]; Numeric.data := [1; 2]%Q |}.
Definition g2 : Numeric.ndarray := {| Numeric.shape := [2%nat]; Numeric.data := [3; 6]%Q |}.

Definition grad_env (name : string) : result Numeric.ndarray :=
  if String.eqb name "tower0/gradients/W" then Ok g1
  else if String.eqb name "tower1/gradients/W" then Ok g2
  else Raise (KeyError name).

(** A batch of two images of two pixels, with their labels. *)
Definition images : Numeric.ndarray :=
  {| Numeric.shape := [2; 2]%nat; Numeric.data := [1; 2; 3; 4]%Q |}.
Definition labels : Numeric.ndarray :=
  {| Numeric.shape := [2%nat]; Numeric.data := [7; 9]%Q |}.

Definition two_towers : list GradientSet :=
  [[(Some (Output "tower0/gradients/W" float32 (Some [Some 2%nat])), W)];
   [(Some (Output "tower1/gradients/W" float32 (Some [Some 2%nat])), W)]].

End Examples.

(** * Properties *)

(** ** Fallible computations *)

Lemma rbind_Ok {A B} (r : result A) (k : A -> result B) (b : B) :
  rbind r k = Ok b -> exists a, r = Ok a /\ k a = Ok b.
Proof. destruct r as [a|e]; simpl; [eauto | discriminate]. Qed.

Lemma assert_Ok (c : bool) (u : unit) : assert c = Ok u -> c = true.
Proof. destruct c; [reflexivity | discriminate]. Qed.

Lemma Ok_or_raises {A} (r : result A) : (exists a, r = Ok a) \/ raises r.
Proof. destruct r as [a|e]; [left | right]; eexists; reflexivity. Qed.

Lemma raises_not_Ok {A} (r : result A) : (forall a, r <> Ok a) -> raises r.
Proof.
  intros Hno. destruct (Ok_or_raises r) as [[a Ha]|Hr]; [|exact Hr].
  exfalso. exact (Hno a Ha).
Qed.

(** Destructs the outermost bind of a hypothesis [_ = Ok _]. *)
Ltac bind_inv H :=
  let x := fresh "x" in
  let Hx := fresh "Hx" in
  apply rbind_Ok in H; destruct H as (x & Hx & H).

(** ** TrainConfig *)

Module ConfigFacts.
Import Config.

Lemma pop_default_eq key d (m : gmap string pyobj) :
  pop_default key d m = (default d (m !! key), delete key m).
Proof.
  unfold pop_default. destruct (m !! key) eqn:E; simpl; [reflexivity|].
  rewrite delete_id; [reflexivity | exact E].
Qed.

Lemma pop_Ok key (m m' : gmap string pyobj) v :
  pop key m = Ok (v, m') -> m !! key = Some v /\ m' = delete key m.
Proof.
  unfold pop. destruct (m !! key); intros H; inversion H; auto.
Qed.

Lemma as_DataFlow_Ok v d : as_DataFlow v = Ok d -> v = PyDataFlow d.
Proof. destruct v; simpl; intros H; inversion H; reflexivity. Qed.
Lemma as_Optimizer_Ok v d : as_Optimizer v = Ok d -> v = PyOptimizer d.
Proof. destruct v; simpl; intros H; inversion H; reflexivity. Qed.
Lemma as_Callbacks_Ok v d : as_Callbacks v = Ok d -> v = PyCallbacks d.
Proof. destruct v; simpl; intros H; inversion H; reflexivity. Qed.
Lemma as_ConfigProto_Ok v d : as_ConfigProto v = Ok d -> v = PyConfigProto d.
Proof. destruct v; simpl; intros H; inversion H; reflexivity. Qed.
Lemma as_SessionInit_Ok v d : as_SessionInit v = Ok d -> v = PySessionInit d.
Proof. destruct v; simpl; intros H; inversion H; reflexivity. Qed.
Lemma as_QueueBase_Ok v d : as_QueueBase v = Ok d -> v = PyQueue d.
Proof. destruct v; simpl; intros H; inversion H; reflexivity. Qed.
Lemma new_FIFOQueue_Ok capacity dtypes name q :
  new_FIFOQueue capacity dtypes name = Ok q ->
  q = FIFOQueue capacity dtypes name /\ dtypes <> [].
Proof.
  destruct dtypes; simpl; intros H; inversion H. split; [reflexivity | discriminate].
Qed.
Lemma iterate_Ok v l : iterate v = Ok l -> v = PyList l.
Proof. destruct v; simpl; intros H; inversion H; reflexivity. Qed.

Lemma all_popped (kwargs : gmap string pyobj) :
  size (delete "nr_tower" (delete "max_epoch" (delete "step_per_epoch"
       (delete "batched_model_input" (delete "get_model_func"
       (delete "input_queue" (delete "inputs" (delete "session_init"
       (delete "session_config" (delete "callbacks" (delete "optimizer"
       (delete "dataset" kwargs)))))))))))) = 0%nat ->
  forall k, is_Some (kwargs !! k) -> k ∈ known_keys.
Proof.
  intros Hsize k Hk. apply map_size_empty_iff in Hsize.
  assert (Hnone := f_equal (fun m : gmap string pyobj => m !! k) Hsize).
  simpl in Hnone. rewrite lookup_empty in Hnone.
  unfold known_keys. rewrite !elem_of_cons.
  repeat (rewrite lookup_delete in Hnone;
          destruct (decide (_ = k)) as [<-|_] in Hnone; [tauto|]).
  rewrite Hnone in Hk. destruct Hk as [? Hk]. discriminate.
Qed.

Lemma init_Ok kwargs c : init kwargs = Ok c -> constructed kwargs c.
Proof.
  unfold init. intros H.
  bind_inv H. destruct x as [v m]. apply pop_Ok in Hx as [Hds ->].
  bind_inv H. apply as_DataFlow_Ok in Hx. subst v. rename x into ds.
  rewrite pop_default_eq in H.
  bind_inv H. clear Hx. rename x into opt.
  bind_inv H. destruct x as [v m]. apply pop_Ok in Hx as [_ ->].
  bind_inv H. clear Hx. rename x into cb.
  rewrite pop_default_eq in H.
  bind_inv H. clear Hx. rename x into sc.
  rewrite pop_default_eq in H.
  bind_inv H. clear Hx. rename x into si.
  bind_inv H. destruct x as [v' m]. apply pop_Ok in Hx as [Hin ->].
  bind_inv H. apply iterate_Ok in Hx. subst v'. rename x into items.
  bind_inv H. rename x into ins. rename Hx into Hins.
  bind_inv H. apply new_FIFOQueue_Ok in Hx as [-> _].
  rewrite pop_default_eq in H.
  bind_inv H. apply as_QueueBase_Ok in Hx. rename x into q. rename Hx into Hq.
  bind_inv H. apply assert_Ok, bool_decide_eq_true in Hx. rename Hx into Hdt.
  clear x.
  bind_inv H. destruct x as [f m]. apply pop_Ok in Hx as [_ ->].
  rewrite pop_default_eq in H.
  rewrite pop_default_eq in H.
  bind_inv H. rename Hx into Hstep. rename x into steps.
  rewrite pop_default_eq in H.
  bind_inv H. rename Hx into Hepoch. rename x into epochs.
  bind_inv H. apply assert_Ok, andb_true_iff in Hx as [Hs He].
  apply Z.ltb_lt in Hs, He. clear x.
  rewrite pop_default_eq in H.
  bind_inv H. rename Hx into Htower. rename x into towers.
  bind_inv H. apply assert_Ok, bool_decide_eq_true in Hx. rename Hx into Hsize.
  inversion H; subst c; clear H.
  repeat rewrite lookup_delete_ne in * by discriminate.
  split; simpl; auto.
  - exists items. split; [exact Hin | exact Hins].
  - apply all_popped. exact Hsize.
Qed.

End ConfigFacts.

Section ConfigClaims.
Import Config ConfigFacts.

(** C5 as stated does not hold: a configuration with no tower at all
    is constructed. *)
Lemma init_accepts_zero_towers :
  exists c, init (Examples.kwargs 2 0) = Ok c /\ ~ (1 <= nr_tower c)%Z.
Proof.
  exists (Examples.config_of 2 0 (PyBool true)). split.
  - vm_compute. reflexivity.
  - simpl. lia.
Qed.

(** C5, amended: construction raises when [step_per_epoch] or
    [max_epoch] is given and not positive, and when an unknown argument
    is given; a constructed configuration has both positive, and has as
    [nr_tower] the integer that was given (1 if none), whatever it is. *)
Theorem init_validates (kwargs : gmap string pyobj) :
  (forall v z, kwargs !! "step_per_epoch" = Some v -> py_int v = Ok z ->
               (z <= 0)%Z -> raises (init kwargs)) /\
  (forall v z, kwargs !! "max_epoch" = Some v -> py_int v = Ok z ->
               (z <= 0)%Z -> raises (init kwargs)) /\
  (forall k, is_Some (kwargs !! k) -> k ∉ known_keys -> raises (init kwargs)) /\
  (forall c, init kwargs = Ok c ->
             (0 < step_per_epoch c)%Z /\ (0 < max_epoch c)%Z /\
             py_int (default (PyInt 1) (kwargs !! "nr_tower")) = Ok (nr_tower c)).
Proof.
  repeat split.
  - intros v z Hv Hz Hle. apply raises_not_Ok. intros c Hc.
    apply init_Ok in Hc. destruct Hc as [_ _ _ _ Hstep _ _ [Hpos _] _].
    rewrite Hv in Hstep. simpl in Hstep. rewrite Hz in Hstep.
    inversion Hstep. lia.
  - intros v z Hv Hz Hle. apply raises_not_Ok. intros c Hc.
    apply init_Ok in Hc. destruct Hc as [_ _ _ _ _ Hepoch _ [_ Hpos] _].
    rewrite Hv in Hepoch. simpl in Hepoch. rewrite Hz in Hepoch.
    inversion Hepoch. lia.
  - intros k Hk Hunknown. apply raises_not_Ok. intros c Hc.
    apply init_Ok in Hc. apply Hunknown. exact (c_known _ _ Hc k Hk).
  - apply init_Ok in H. apply (c_positive _ _ H).
  - apply init_Ok in H. apply (c_positive _ _ H).
  - apply init_Ok in H. apply (c_tower _ _ H).
Qed.

Lemma init_validates_witness :
  raises (init (Examples.kwargs 0 1)) /\
  raises (init (<["prefetch" := PyInt 4]> (Examples.kwargs 2 1))) /\
  (0 < step_per_epoch (Examples.config_of 2 (-3) (PyBool true)))%Z /\
  (0 < max_epoch (Examples.config_of 2 (-3) (PyBool true)))%Z.
Proof.
  split; [|split].
  - apply (proj1 (proj2 (init_validates (Examples.kwargs 0 1))) (PyInt 0) 0%Z);
      [reflexivity | reflexivity | lia].
  - apply (proj1 (proj2 (proj2
             (init_validates (<["prefetch" := PyInt 4]> (Examples.kwargs 2 1)))))
             "prefetch").
    + exists (PyInt 4). reflexivity.
    + unfold known_keys. rewrite !elem_of_cons, elem_of_nil.
      intros Hin. repeat (destruct Hin as [Hin|Hin]; [discriminate|]). exact Hin.
  - pose proof (proj2 (proj2 (proj2 (init_validates (Examples.kwargs 2 (-3)))))
                  (Examples.config_of 2 (-3) (PyBool true))) as H.
    destruct H as (Hs & He & _); [vm_compute; reflexivity|]. split; assumption.
Defined.



End ConfigClaims.

(** ** The step loop *)

(** Where an element of [l1 ++ y :: l2] can sit. *)
Lemma app_cons_split {A} (pre post l1 l2 : list A) (x y : A) :
  pre ++ x :: post = l1 ++ y :: l2 ->
  (exists m, l1 = pre ++ x :: m /\ post = m ++ y :: l2) \/
  (pre = l1 /\ x = y /\ post = l2) \/
  (exists m, l2 = m ++ x :: post /\ pre = l1 ++ y :: m).
Proof.
  revert l1. induction pre as [|p pre IH]; intros [|a l1] H; simpl in H.
  - inversion H. right. left. auto.
  - inversion H. left. exists l1. auto.
  - inversion H. right. right. exists pre. auto.
  - inversion H as [[Hp Hrest]]. apply IH in Hrest.
    destruct Hrest as [(m & -> & ->)|[(-> & -> & ->)|(m & -> & ->)]].
    + left. exists m. auto.
    + right. left. auto.
    + right. right. exists m. auto.
Qed.

Section LoopFacts.
Context `{RT : Runtime}.
Variable config : TrainConfig.
Variable built : Built.

Abbreviation fetch_list := (fetches built).
Abbreviation run_steps := (step_loop built).
Abbreviation run_epochs := (epoch_loop config built).
Abbreviation run_training := (train_loop config built).

(** The value of a fetch in the run started from session [s]. *)
Abbreviation value_in s := (fst (execute s fetch_list)).

Lemma sess_run_eq s :
  sess_run s fetch_list = (map (value_in s) fetch_list, snd (execute s fetch_list)).
Proof. unfold sess_run. destruct (execute s fetch_list). reflexivity. Qed.

Lemma results_cost s :
  map (value_in s) fetch_list !! 1%nat
  = Some (value_in s (FetchTensor (b_cost_var built))).
Proof. reflexivity. Qed.

Lemma results_outputs s :
  slice (map (value_in s) fetch_list) 2 (2 + length (b_output_vars built))
  = map (fun t => value_in s (FetchTensor t)) (b_output_vars built).
Proof.
  unfold slice.
  replace (2 + length (b_output_vars built) - 2)%nat
    with (length (b_output_vars built)) by lia.
  unfold fetches. cbn [app map drop].
  rewrite map_app, !map_map, drop_0.
  rewrite take_app_length'; [reflexivity | symmetry; apply length_map].
Qed.

Lemma results_inputs s :
  b_model_inputs built <> [] ->
  slice_last (map (value_in s) fetch_list) (length (b_model_inputs built))
  = map (fun t => value_in s (FetchTensor t)) (b_model_inputs built).
Proof.
  intros Hne. unfold slice_last.
  destruct (length (b_model_inputs built)) as [|n] eqn:Hlen.
  { destruct (b_model_inputs built); [congruence | discriminate]. }
  rewrite <- Hlen. clear n Hlen.
  unfold fetches.
  rewrite !app_assoc, map_app, map_map.
  rewrite drop_app_length'; [reflexivity|].
  rewrite length_app, !length_map. lia.
Qed.

(** One iteration of the step loop that is allowed to go on. *)
Lemma step_loop_go i steps w :
  should_stop (w_polls w) = false ->
  run_steps (i :: steps) w =
    let s := w_session w in
    let '(evs, out, w') :=
      run_steps steps {| w_session := snd (execute s fetch_list);
                         w_polls := S (w_polls w) |} in
    (ShouldStop false
       :: Run fetch_list
       :: TriggerStep
            (slice_last (map (value_in s) fetch_list) (length (b_model_inputs built)))
            (map (fun t => value_in s (FetchTensor t)) (b_output_vars built))
            (value_in s (FetchTensor (b_cost_var built)))
       :: evs, out, w').
Proof.
  intros Hgo. simpl. rewrite Hgo. simpl. rewrite sess_run_eq.
  rewrite results_cost, results_outputs. reflexivity.
Qed.

Lemma step_loop_stop i steps w :
  should_stop (w_polls w) = true ->
  run_steps (i :: steps) w =
    ([ShouldStop true], Returned,
     {| w_session := w_session w; w_polls := S (w_polls w) |}).
Proof. intros Hstop. simpl. rewrite Hstop. reflexivity. Qed.

Lemma count_app p (tr1 tr2 : list event) :
  count p (tr1 ++ tr2) = (count p tr1 + count p tr2)%nat.
Proof. unfold count. rewrite List.filter_app, length_app. reflexivity. Qed.

(** *** Counting steps and epochs *)

Lemma step_loop_never steps w :
  (forall n, should_stop n = false) ->
  exists tr w', run_steps steps w = (tr, Completed, w')
    /\ count is_run tr = length steps
    /\ count is_trigger_step tr = length steps
    /\ count is_trigger_epoch tr = 0%nat.
Proof.
  intros Hnever. revert w. induction steps as [|i steps IH]; intros w.
  - exists [], w. repeat split; reflexivity.
  - rewrite step_loop_go by apply Hnever. cbv zeta.
    destruct (IH {| w_session := snd (execute (w_session w) fetch_list);
                    w_polls := S (w_polls w) |})
      as (tr & w' & -> & Hrun & Hstep & Hepoch).
    eexists _, w'. split; [reflexivity|].
    unfold count in *. simpl. rewrite Hrun, Hstep, Hepoch. auto.
Qed.

Lemma epoch_loop_never epochs w :
  (forall n, should_stop n = false) ->
  exists tr w', run_epochs epochs w = (tr, Completed, w')
    /\ count is_run tr = (length epochs * Z.to_nat (step_per_epoch config))%nat
    /\ count is_trigger_step tr = (length epochs * Z.to_nat (step_per_epoch config))%nat
    /\ count is_trigger_epoch tr = length epochs.
Proof.
  intros Hnever. revert w. induction epochs as [|e epochs IH]; intros w.
  - exists [], w. repeat split; reflexivity.
  - simpl.
    destruct (step_loop_never (range (step_per_epoch config)) w Hnever)
      as (tr1 & w1 & -> & Hrun1 & Hstep1 & Hepoch1).
    destruct (IH w1) as (tr2 & w2 & -> & Hrun2 & Hstep2 & Hepoch2).
    eexists _, w2. split; [reflexivity|].
    change (tr1 ++ TriggerEpoch :: tr2) with (tr1 ++ [TriggerEpoch] ++ tr2).
    rewrite !count_app, Hrun1, Hstep1, Hepoch1, Hrun2, Hstep2, Hepoch2.
    unfold range. rewrite length_seq. unfold count. simpl. lia.
Qed.

Lemma length_xrange lo hi : length (xrange lo hi) = Z.to_nat (hi - lo).
Proof. unfold xrange. rewrite length_map, length_seq. reflexivity. Qed.

(** C1: with [step_per_epoch = S] and [max_epoch = M], a training
    that the coordinator never stops runs [S * (M - 1)] steps, each
    with its [trigger_step], and calls [trigger_epoch] [M - 1]
    times. *)
Theorem steps_and_epochs_run (kwargs : gmap string pyobj) (w : world) :
  Config.init kwargs = Ok config ->
  (forall n, should_stop n = false) ->
  exists tr w', run_training w = (tr, Completed, w')
    /\ Z.of_nat (count is_run tr)
       = (step_per_epoch config * (max_epoch config - 1))%Z
    /\ Z.of_nat (count is_trigger_step tr)
       = (step_per_epoch config * (max_epoch config - 1))%Z
    /\ Z.of_nat (count is_trigger_epoch tr) = (max_epoch config - 1)%Z.
Proof.
  intros Hinit Hnever. apply ConfigFacts.init_Ok in Hinit.
  destruct (Config.c_positive _ _ Hinit) as [HS HM].
  unfold train_loop.
  destruct (epoch_loop_never (xrange 1 (max_epoch config)) w Hnever)
    as (tr & w' & -> & Hrun & Hstep & Hepoch).
  exists (BeforeTrain :: tr), w'. split; [reflexivity|].
  rewrite length_xrange in Hrun, Hstep, Hepoch.
  change (BeforeTrain :: tr) with ([BeforeTrain] ++ tr).
  rewrite !count_app, Hrun, Hstep, Hepoch. unfold count. simpl.
  rewrite Nat2Z.inj_mul, !Z2Nat.id by lia. lia.
Qed.

(** *** Cancellation *)

Lemma step_loop_polled steps w :
  nothing_after_stop (run_steps steps w).1.1 (run_steps steps w).1.2
  /\ runs_are_whole_steps (run_steps steps w).1.1.
Proof.
  revert w. induction steps as [|i steps IH]; intros w.
  - split; [intros pre post H | intros pre fs post H];
      destruct pre; discriminate.
  - destruct (should_stop (w_polls w)) eqn:Hpoll.
    + rewrite step_loop_stop by exact Hpoll. simpl. split.
      * intros pre post H. destruct pre as [|? [|? ?]]; inversion H. auto.
      * intros pre fs post H. destruct pre as [|? [|? ?]]; inversion H.
    + rewrite step_loop_go by exact Hpoll. cbv zeta.
      specialize (IH {| w_session := snd (execute (w_session w) fetch_list);
                        w_polls := S (w_polls w) |}).
      destruct (run_steps steps _) as [[evs out] w']. simpl in *.
      destruct IH as [IHstop IHrun]. split.
      * intros pre post H.
        destruct pre as [|? [|? [|? pre]]]; inversion H; subst.
        eapply IHstop. reflexivity.
      * intros pre fs post H.
        destruct pre as [|? [|? [|? pre]]]; inversion H; subst.
        -- split; [exists []; reflexivity | eauto].
        -- destruct (IHrun pre fs post eq_refl) as [[pre' ->] Hpost].
           split; [|exact Hpost].
           eexists (_ :: _ :: _ :: pre'). reflexivity.
Qed.

Lemma epoch_loop_polled epochs w :
  nothing_after_stop (run_epochs epochs w).1.1 (run_epochs epochs w).1.2
  /\ runs_are_whole_steps (run_epochs epochs w).1.1.
Proof.
  revert w. induction epochs as [|e epochs IH]; intros w.
  - split; [intros pre post H | intros pre fs post H];
      destruct pre; discriminate.
  - simpl. pose proof (step_loop_polled (range (step_per_epoch config)) w) as Hsteps.
    destruct (run_steps _ w) as [[evs out] w1]. simpl in Hsteps.
    destruct Hsteps as [Hstop Hrun].
    destruct out; [|simpl; split; assumption..].
    specialize (IH w1). destruct (run_epochs epochs w1) as [[evs' out'] w2].
    simpl in *. destruct IH as [IHstop IHrun]. split.
    + intros pre post H. symmetry in H. apply app_cons_split in H.
      destruct H as [(m & -> & ->)|[(_ & Hx & _)|(m & -> & ->)]].
      * destruct (Hstop pre m eq_refl) as [_ Hout]. discriminate.
      * discriminate.
      * eapply IHstop. reflexivity.
    + intros pre fs post H. symmetry in H. apply app_cons_split in H.
      destruct H as [(m & -> & ->)|[(_ & Hx & _)|(m & -> & ->)]].
      * destruct (Hrun pre fs m eq_refl) as [Hpre (ins & outs & cost & post' & ->)].
        split; [exact Hpre|]. simpl. eauto.
      * discriminate.
      * destruct (IHrun m fs post eq_refl) as [[pre' ->] Hpost].
        split; [|exact Hpost].
        exists (evs ++ TriggerEpoch :: pre'). rewrite <- app_assoc. reflexivity.
Qed.

(** Steps run before the coordinator says stop for good. *)
Lemma step_loop_bounded steps w k :
  (forall n, (k <= n)%nat -> should_stop n = true) ->
  let '(tr, _, w') := run_steps steps w in
  (w_polls w + count is_run tr <= w_polls w')%nat /\
  (count is_run tr <= k - w_polls w)%nat.
Proof.
  intros Hstop. revert w. induction steps as [|i steps IH]; intros w.
  - simpl. unfold count. simpl. lia.
  - destruct (should_stop (w_polls w)) eqn:Hpoll.
    + rewrite step_loop_stop by exact Hpoll. unfold count. simpl. lia.
    + assert (w_polls w < k)%nat.
      { destruct (Nat.lt_ge_cases (w_polls w) k) as [Hlt|Hge]; [exact Hlt|].
        rewrite (Hstop _ Hge) in Hpoll. discriminate. }
      rewrite step_loop_go by exact Hpoll. cbv zeta.
      specialize (IH {| w_session := snd (execute (w_session w) fetch_list);
                        w_polls := S (w_polls w) |}).
      destruct (run_steps steps _) as [[evs out] w']. simpl in IH.
      unfold count in *. simpl. lia.
Qed.

Lemma epoch_loop_bounded epochs w k :
  (forall n, (k <= n)%nat -> should_stop n = true) ->
  let '(tr, _, w') := run_epochs epochs w in
  (w_polls w + count is_run tr <= w_polls w')%nat /\
  (count is_run tr <= k - w_polls w)%nat.
Proof.
  intros Hstop. revert w. induction epochs as [|e epochs IH]; intros w.
  - simpl. unfold count. simpl. lia.
  - simpl. pose proof (step_loop_bounded (range (step_per_epoch config)) w k Hstop) as H1.
    destruct (run_steps _ w) as [[evs out] w1].
    destruct out; [|exact H1..].
    specialize (IH w1). destruct (run_epochs epochs w1) as [[evs' out'] w2].
    change (evs ++ TriggerEpoch :: evs') with (evs ++ [TriggerEpoch] ++ evs').
    rewrite !count_app. unfold count at 2 5. simpl. lia.
Qed.

(** C6: in every training, whatever the coordinator answers and
    when, a poll answered with stop is the last thing the loop does
    before it returns; every fused run follows a poll answered with
    go-on, and its [trigger_step] follows the run.  So when the answer
    is stop from the poll numbered [k] on, no more than the steps
    polled before that have run. *)
Theorem stop_is_polled_between_steps (w : world) :
  nothing_after_stop (run_training w).1.1 (run_training w).1.2
  /\ runs_are_whole_steps (run_training w).1.1
  /\ (forall k, (forall n, (k <= n)%nat -> should_stop n = true) ->
                (count is_run (run_training w).1.1 <= k - w_polls w)%nat).
Proof.
  unfold train_loop.
  pose proof (epoch_loop_polled (xrange 1 (max_epoch config)) w) as H.
  pose proof (epoch_loop_bounded (xrange 1 (max_epoch config)) w) as Hk.
  destruct (run_epochs _ w) as [[evs out] w']. simpl in *.
  destruct H as [Hstop Hrun]. split; [|split].
  - intros pre post H. destruct pre as [|? pre]; inversion H; subst.
    eapply Hstop. reflexivity.
  - intros pre fs post H. destruct pre as [|? pre]; inversion H; subst.
    destruct (Hrun pre fs post eq_refl) as [[pre' ->] Hpost].
    split; [|exact Hpost]. exists (BeforeTrain :: pre'). reflexivity.
  - intros k Hall. destruct (Hk k Hall) as [_ Hle].
    change (BeforeTrain :: evs) with ([BeforeTrain] ++ evs).
    rewrite count_app. unfold count at 1. simpl. exact Hle.
Qed.

(** *** The fused run *)

(** C7: a step that goes on makes one run, of the train op, the cost,
    the outputs and the model inputs together, and hands to
    [trigger_step] the values that this run gave for the model inputs,
    the outputs and the cost. *)
Theorem step_reports_its_own_run (i : nat) (steps : list nat) (w : world) :
  b_model_inputs built <> [] ->
  should_stop (w_polls w) = false ->
  fetch_list = [FetchOp (b_train_op built); FetchTensor (b_cost_var built)]
                 ++ map FetchTensor (b_output_vars built)
                 ++ map FetchTensor (b_model_inputs built)
  /\ run_steps (i :: steps) w =
     let s := w_session w in
     let '(evs, out, w') :=
       run_steps steps {| w_session := snd (execute s fetch_list);
                          w_polls := S (w_polls w) |} in
     (ShouldStop false
        :: Run fetch_list
        :: TriggerStep
             (map (fun t => value_in s (FetchTensor t)) (b_model_inputs built))
             (map (fun t => value_in s (FetchTensor t)) (b_output_vars built))
             (value_in s (FetchTensor (b_cost_var built)))
        :: evs, out, w').
Proof.
  intros Hinputs Hgo. split; [reflexivity|].
  rewrite step_loop_go by exact Hgo. cbv zeta.
  rewrite results_inputs by exact Hinputs. reflexivity.
Qed.

End LoopFacts.

Lemma steps_and_epochs_run_witness :
  exists tr w',
    train_loop (RT := Examples.toy_runtime Examples.never)
               (Examples.config_of 2 1 (PyBool true)) Examples.toy_built
               (@Build_world (Examples.toy_runtime Examples.never) 0%nat 0%nat)
    = (tr, Completed, w')
    /\ Z.of_nat (count is_run tr) = (3 * (2 - 1))%Z
    /\ Z.of_nat (count is_trigger_step tr) = (3 * (2 - 1))%Z
    /\ Z.of_nat (count is_trigger_epoch tr) = (2 - 1)%Z.
Proof.
  apply (steps_and_epochs_run (RT := Examples.toy_runtime Examples.never)
           (Examples.config_of 2 1 (PyBool true)) Examples.toy_built
           (Examples.kwargs 2 1)).
  - vm_compute. reflexivity.
  - intros n. reflexivity.
Defined.

Lemma step_reports_its_own_run_witness :
  step_loop (RT := Examples.toy_runtime Examples.never) Examples.toy_built [0%nat]
            (@Build_world (Examples.toy_runtime Examples.never) 7%nat 0%nat)
  = ([ShouldStop false;
      Run (fetches Examples.toy_built);
      @TriggerStep (Examples.toy_runtime Examples.never)
        [(7%nat, FetchTensor Examples.image); (7%nat, FetchTensor Examples.label)]
        [(7%nat, FetchTensor (Output "prob" float32 unknown_shape))]
        (7%nat, FetchTensor (Output "cost" float32 (Some [])))],
     Completed,
     @Build_world (Examples.toy_runtime Examples.never) 8%nat 1%nat).
Proof.
  apply (proj2 (step_reports_its_own_run
                  (RT := Examples.toy_runtime Examples.never)
                  Examples.toy_built 0%nat []
                  (@Build_world (Examples.toy_runtime Examples.never) 7%nat 0%nat)
                  ltac:(discriminate) eq_refl)).
Defined.

Lemma stop_is_polled_between_steps_witness :
  (count is_run
     (train_loop (RT := Examples.toy_runtime (Examples.from 2))
                 (Examples.config_of 3 1 (PyBool true)) Examples.toy_built
                 (@Build_world (Examples.toy_runtime (Examples.from 2)) 0%nat 0%nat)).1.1
   <= 2 - 0)%nat.
Proof.
  apply (proj2 (proj2 (stop_is_polled_between_steps
                         (RT := Examples.toy_runtime (Examples.from 2))
                         (Examples.config_of 3 1 (PyBool true)) Examples.toy_built
                         (@Build_world (Examples.toy_runtime (Examples.from 2))
                                       0%nat 0%nat))) 2%nat).
  intros n Hn. apply Nat.leb_le. exact Hn.
Defined.

(** ** Gradient averaging *)

Section TraverseFacts.
Context {A B : Type} (f : A -> result B).

Lemma traverse_Ok (l : list A) (k : list B) :
  traverse f l = Ok k <-> Forall2 (fun x y => f x = Ok y) l k.
Proof.
  revert k. induction l as [|x l IH]; intros k; simpl.
  - split; intros H; inversion H; constructor.
  - split.
    + intros H. bind_inv H. bind_inv H. inversion H; subst.
      constructor; [assumption | apply IH; assumption].
    + intros H. inversion H as [|? y ? k' Hxy Hrest]; subst.
      rewrite Hxy. simpl. apply IH in Hrest. rewrite Hrest. reflexivity.
Qed.

Lemma traverse_map (g : A -> B) (l : list A) :
  Forall (fun x => f x = Ok (g x)) l -> traverse f l = Ok (map g l).
Proof.
  intros H. apply traverse_Ok. induction H; simpl; constructor; assumption.
Qed.

Lemma traverse_total (l : list A) :
  Forall (fun x => exists y, f x = Ok y) l -> exists k, traverse f l = Ok k.
Proof.
  intros H. induction H as [|x l [y Hy] H [k IH]]; simpl.
  - exists []. reflexivity.
  - exists (y :: k). rewrite Hy. simpl. rewrite IH. reflexivity.
Qed.

Lemma traverse_raises (l1 l2 : list A) (x : A) :
  raises (f x) -> raises (traverse f (l1 ++ x :: l2)).
Proof.
  intros [e He]. induction l1 as [|a l1 [e' IH]]; simpl.
  - rewrite He. exists e. reflexivity.
  - destruct (f a); simpl; [|eexists; reflexivity].
    rewrite IH. exists e'. reflexivity.
Qed.

End TraverseFacts.

Section ZipStar.
Context {A : Type}.

(** Row [i] of [zip( *lists )] takes element [i] of every list, and is
    there when every list has one. *)
Lemma zip_star_lookup (lists : list (list A)) (i : nat) :
  lists <> [] -> zip_star lists !! i = mapM (fun l => l !! i) lists.
Proof.
  induction lists as [|l rest IH]; [congruence|]. intros _.
  destruct rest as [|l' rest].
  - simpl. rewrite list_lookup_fmap. destruct (l !! i); reflexivity.
  - change (zip_star (l :: l' :: rest))
      with (zip_with cons l (zip_star (l' :: rest))).
    rewrite lookup_zip_with, IH by discriminate.
    change (mapM (fun l => l !! i) (l :: l' :: rest))
      with (x ← l !! i; k ← mapM (fun l => l !! i) (l' :: rest); mret (x :: k)).
    destruct (l !! i); simpl; [|reflexivity].
    destruct (mapM _ (l' :: rest)); reflexivity.
Qed.

Lemma zip_star_length (lists : list (list A)) (n : nat) :
  lists <> [] -> Forall (fun l => length l = n) lists ->
  length (zip_star lists) = n.
Proof.
  induction lists as [|l rest IH]; [congruence|]. intros _ Hall.
  inversion Hall as [|? ? Hl Hrest]; subst.
  destruct rest as [|l' rest].
  - simpl. apply length_map.
  - change (zip_star (l :: l' :: rest))
      with (zip_with cons l (zip_star (l' :: rest))).
    rewrite length_zip_with, IH by (discriminate || assumption). lia.
Qed.

End ZipStar.

Module NumericFacts.
Import Numeric.

Lemma all_of_shape_length s vals :
  all_of_shape s vals -> Forall (fun v => length (data v) = numel s) vals.
Proof.
  intros H. eapply Forall_impl; [exact H|]. simpl.
  intros v [Hs Hwf]. unfold well_formed in Hwf. rewrite Hwf, Hs. reflexivity.
Qed.

(** Element [i] of block [k] of the stacked data is element [i] of
    tensor [k]. *)
Lemma column_of_blocks (vals : list ndarray) (m i : nat) :
  Forall (fun v => length (data v) = m) vals -> (i < m)%nat ->
  map (fun k => nth (k * m + i) (flat_map data vals) 0%Q) (seq 0 (length vals))
  = map (fun v => nth i (data v) 0%Q) vals.
Proof.
  intros Hall Hi. induction Hall as [|v vals Hv Hall IH]; [reflexivity|].
  simpl. f_equal.
  - apply List.app_nth1. lia.
  - rewrite <- List.seq_shift, List.map_map. rewrite <- IH.
    apply List.map_ext. intros k.
    replace (S k * m + i)%nat with (length (data v) + (k * m + i))%nat by lia.
    apply List.app_nth2_plus.
Qed.

Lemma stack_ones (vals : list ndarray) :
  list_sum (map (fun v => nth 0 (shape v) 0%nat)
                (map (fun v => {| shape := 1%nat :: shape v; data := data v |}) vals))
  = length vals.
Proof. induction vals as [|v vals IH]; simpl; [reflexivity | rewrite IH; reflexivity]. Qed.

Lemma stack_blocks (vals : list ndarray) (s : list nat) :
  all_of_shape s vals ->
  flat_map (fun v => take (numel (drop 0 (shape v)))
                          (drop (0 * numel (drop 0 (shape v))) (data v)))
           (map (fun v => {| shape := 1%nat :: shape v; data := data v |}) vals)
  = flat_map data vals.
Proof.
  intros Hall. induction Hall as [|v vals [Hs Hwf] Hall IH]; [reflexivity|].
  simpl in *. rewrite IH. f_equal.
  unfold well_formed in Hwf. rewrite Nat.add_0_r, <- Hwf. apply firstn_all.
Qed.

Lemma stack_same_except (vals : list ndarray) (s : list nat) :
  all_of_shape s vals ->
  forallb (fun v => same_except 0 (1%nat :: s) (shape v))
          (map (fun v => {| shape := 1%nat :: shape v; data := data v |}) vals) = true.
Proof.
  intros Hall. induction Hall as [|v vals [Hs Hwf] Hall IH]; [reflexivity|].
  simpl. rewrite IH, Hs. unfold same_except. simpl.
  rewrite !bool_decide_eq_true_2 by reflexivity. reflexivity.
Qed.

(** Stacking [N] tensors of shape [s] gives shape [N :: s] and the
    data one after the other. *)
Lemma concat_stack (vals : list ndarray) (s : list nat) :
  vals <> [] -> all_of_shape s vals ->
  concat 0 (map (fun v => {| shape := 1%nat :: shape v; data := data v |}) vals)
  = Ok {| shape := length vals :: s; data := flat_map data vals |}.
Proof.
  intros Hne Hall.
  pose proof (stack_same_except vals s Hall) as Hcheck.
  pose proof (stack_ones vals) as Hones.
  pose proof (stack_blocks vals s Hall) as Hdata.
  destruct vals as [|v0 vals']; [congruence|].
  assert (Hshape0 : shape v0 = s).
  { inversion Hall as [|? ? [Hs _] _]. exact Hs. }
  unfold concat.
  set (vs := map _ (v0 :: vals')) in *.
  change vs with ({| shape := 1%nat :: shape v0; data := data v0 |} :: tail vs) at 1.
  cbv beta iota. cbn [shape length take drop app]. rewrite Hshape0.
  change (0 <? S (length s))%nat with true. rewrite Hcheck. cbn [andb].
  rewrite Hones. cbn [numel fold_right seq flat_map].
  rewrite app_nil_r, Hdata. reflexivity.
Qed.

Lemma reduce_mean_stack (vals : list ndarray) (s : list nat) :
  all_of_shape s vals ->
  reduce_mean {| shape := length vals :: s; data := flat_map data vals |} 0
  = Ok (mean_of s vals).
Proof.
  intros Hall. unfold reduce_mean, mean_of. simpl. f_equal. f_equal.
  rewrite app_nil_r. apply List.map_ext_in. intros i Hi. apply in_seq in Hi.
  f_equal. f_equal.
  rewrite <- (column_of_blocks vals (numel s) i);
    [reflexivity | apply all_of_shape_length; exact Hall | lia].
Qed.

End NumericFacts.

Section AverageGradients.
Import Numeric NumericFacts.

(** The tensor [average_gradients] builds from the gradients [gs] of one
    variable. *)
Abbreviation averaged gs :=
  (ReduceMean (Concat 0 (map (fun g => ExpandDims g 0) gs)) 0).

Lemma eval_expand_all env (gs : list Tensor) (vals : list ndarray) :
  Forall2 (fun g v => eval env g = Ok v) gs vals ->
  traverse (eval env) (map (fun g => ExpandDims g 0) gs)
  = Ok (map (fun v => {| shape := 1%nat :: shape v; data := data v |}) vals).
Proof.
  intros H. apply traverse_Ok.
  induction H as [|g v gs vals Hg H IH]; simpl; constructor; [|exact IH].
  simpl. rewrite Hg. reflexivity.
Qed.

Lemma eval_averaged env (gs : list Tensor) (vals : list ndarray) (s : list nat) :
  vals <> [] ->
  Forall2 (fun g v => eval env g = Ok v) gs vals ->
  all_of_shape s vals ->
  eval env (averaged gs) = Ok (mean_of s vals).
Proof.
  intros Hne Hevals Hall.
  change (eval env (averaged gs)) with
    (rbind (rbind (traverse (eval env) (map (fun g => ExpandDims g 0) gs))
                  (fun vs => concat 0 vs))
           (fun v => reduce_mean v 0)).
  rewrite (eval_expand_all env gs vals Hevals). simpl rbind.
  rewrite (concat_stack vals s Hne Hall). simpl rbind.
  apply reduce_mean_stack. exact Hall.
Qed.

(** The general path is not the identity on one tower: it wraps every
    gradient. *)
Lemma average_of_one_tower_wraps (g : Tensor) (v : Variable_) :
  average_gradients [[(Some g, v)]] = Ok [(Some (averaged [g]), v)].
Proof. reflexivity. Qed.

(** One row of the transposition, every gradient present. *)
Lemma average_row (row : list (option Tensor * Variable_)) gv0 row' :
  row = gv0 :: row' ->
  Forall (fun gv => is_Some (fst gv)) row ->
  exists gs, map fst row = map Some gs /\
    (let* grads := traverse (fun gv => tf_expand_dims (fst gv) 0) row in
     let grad := Concat 0 grads in
     let grad := ReduceMean grad 0 in
     match row with
     | gv0 :: _ => Ok (Some grad, snd gv0)
     | [] => Raise IndexError
     end)%result = Ok (Some (averaged gs), snd gv0).
Proof.
  intros -> Hall.
  assert (Hgs : exists gs, map fst (gv0 :: row') = map Some gs /\
            traverse (fun gv => tf_expand_dims (fst gv) 0) (gv0 :: row')
            = Ok (map (fun g => ExpandDims g 0) gs)).
  { induction Hall as [|[g v] l [t Ht] Hall (gs & Hfst & Htr)].
    - exists []. split; reflexivity.
    - simpl in Ht. subst g. exists (t :: gs). split.
      + simpl. f_equal. exact Hfst.
      + change (traverse ?f ((Some t, v) :: l))
          with (rbind (f (Some t, v)) (fun y => rbind (traverse f l) (fun ys => Ok (y :: ys)))).
        simpl. rewrite Htr. reflexivity. }
  destruct Hgs as (gs & Hfst & Htr). exists gs. split; [exact Hfst|].
  rewrite Htr. reflexivity.
Qed.

Lemma column_evals env (i : nat) (lists : list GradientSet) row gs vals :
  Forall2 (fun (l : GradientSet) x => l !! i = Some x) lists row ->
  map fst row = map Some gs ->
  Forall2 (fun (l : GradientSet) val =>
             exists g, fst <$> l !! i = Some (Some g) /\ eval env g = Ok val)
          lists vals ->
  Forall2 (fun g v => eval env g = Ok v) gs vals.
Proof.
  intros Hrow. revert gs vals.
  induction Hrow as [|l x lists row Hx Hrow IH]; intros gs vals Hfst Hvals.
  - destruct gs; [|discriminate]. inversion Hvals. constructor.
  - destruct gs as [|g gs]; [discriminate|]. simpl in Hfst.
    inversion Hfst as [[Hg Hrest]].
    inversion Hvals as [|? val ? vals' (g' & Hl & Heval) Hvals']; subst.
    rewrite Hx in Hl. simpl in Hl. rewrite Hg in Hl. inversion Hl; subst g'.
    constructor; [exact Heval | apply IH; assumption].
Qed.

Lemma column_present {P : option Tensor * Variable_ -> Prop} (i : nat)
    (lists : list GradientSet) row :
  Forall2 (fun (l : GradientSet) x => l !! i = Some x) lists row ->
  Forall (Forall P) lists -> Forall P row.
Proof.
  intros Hrow Hall. induction Hrow as [|l x lists row Hx Hrow IH]; [constructor|].
  inversion Hall as [|? ? Hl Hrest]; subst. constructor; [|apply IH; exact Hrest].
  rewrite List.Forall_forall in Hl. apply Hl.
  apply list_elem_of_In, list_elem_of_lookup. exists i. exact Hx.
Qed.

(** C2: for one or more towers whose gradient sets have the same length
    and every gradient present, [average_gradients] returns a set of
    that length; at each position it has the variable of tower 0 and a
    tensor whose value is the mean [(g_1 + ... + g_N) / N] of the values
    of the towers' gradients there, whenever these have one shape. *)
Theorem average_gradients_mean (t0 : GradientSet) (rest : list GradientSet) (L : nat) :
  Forall (fun gs : GradientSet => length gs = L) (t0 :: rest) ->
  Forall (Forall (fun gv : option Tensor * Variable_ => is_Some (fst gv))) (t0 :: rest) ->
  exists out,
    average_gradients (t0 :: rest) = Ok out /\ length out = L /\
    forall i g0 v0, t0 !! i = Some (g0, v0) ->
      exists avg, out !! i = Some (Some avg, v0) /\
        forall env s vals,
          Forall2 (fun (gs : GradientSet) val =>
                     exists g, fst <$> gs !! i = Some (Some g) /\ eval env g = Ok val)
                  (t0 :: rest) vals ->
          all_of_shape s vals ->
          eval env avg = Ok (mean_of s vals).
Proof.
  intros Hlen Hpresent.
  assert (Hne : t0 :: rest <> []) by discriminate.
  assert (Hrows : forall i row, zip_star (t0 :: rest) !! i = Some row ->
            Forall2 (fun (l : GradientSet) x => l !! i = Some x) (t0 :: rest) row
            /\ Forall (fun gv => is_Some (fst gv)) row).
  { intros i row Hrow. rewrite zip_star_lookup in Hrow by exact Hne.
    apply mapM_Some in Hrow. split; [exact Hrow|].
    eapply column_present; eassumption. }
  unfold average_gradients.
  set (F := fun grad_and_vars : list (option Tensor * Variable_) => _).
  assert (Htotal : Forall (fun row => exists y, F row = Ok y) (zip_star (t0 :: rest))).
  { apply List.Forall_forall. intros row Hin.
    apply list_elem_of_In, list_elem_of_lookup in Hin as [i Hi].
    destruct (Hrows i row Hi) as [Hcol Hsome].
    inversion Hcol as [|? gv0 ? row' _ _]; subst.
    destruct (average_row (gv0 :: row') gv0 row' eq_refl Hsome) as (gs & _ & HF).
    eexists. exact HF. }
  apply traverse_total in Htotal as [out Hout]. exists out.
  split; [exact Hout|]. apply traverse_Ok in Hout. split.
  { rewrite <- (Forall2_length _ _ _ Hout). apply zip_star_length; assumption. }
  intros i g0 v0 Hi0.
  assert (Hi : (i < length (zip_star (t0 :: rest)))%nat).
  { rewrite (zip_star_length _ L Hne Hlen).
    inversion Hlen as [|? ? Hl0 _]; subst. eapply lookup_lt_Some. exact Hi0. }
  apply lookup_lt_is_Some in Hi as [row Hrow].
  destruct (Forall2_lookup_l _ _ _ _ _ Hout Hrow) as (y & Hy & HF).
  destruct (Hrows i row Hrow) as [Hcol Hsome].
  inversion Hcol as [|? gv0 ? row' Hgv0 Hcol']; subst.
  rewrite Hi0 in Hgv0. inversion Hgv0; subst gv0.
  destruct (average_row _ (g0, v0) row' eq_refl Hsome) as (gs & Hfst & HF').
  change (F ((g0, v0) :: row') = Ok (Some (averaged gs), v0)) in HF'.
  rewrite HF' in HF. inversion HF; subst y.
  exists (averaged gs). split; [exact Hy|].
  intros env s vals Hvals Hshape.
  apply eval_averaged with (vals := vals); [| |exact Hshape].
  - intros ->. inversion Hvals.
  - exact (column_evals env i _ _ gs vals Hcol Hfst Hvals).
Qed.

End AverageGradients.

Lemma average_gradients_mean_witness :
  exists avg,
    average_gradients Examples.two_towers = Ok [(Some avg, Examples.W)] /\
    eval Examples.grad_env avg
    = Ok (Numeric.mean_of [2%nat] [Examples.g1; Examples.g2]).
Proof.
  destruct (average_gradients_mean
              [(Some (Output "tower0/gradients/W" float32 (Some [Some 2%nat])),
                Examples.W)]
              [[(Some (Output "tower1/gradients/W" float32 (Some [Some 2%nat])),
                 Examples.W)]]
              1%nat)
    as (out & Hout & Hlen & Hpos).
  - repeat constructor.
  - repeat constructor; eexists; reflexivity.
  - destruct (Hpos 0%nat _ Examples.W eq_refl) as (avg & Hlookup & Heval).
    exists avg. split.
    + transitivity (Ok out); [exact Hout|].
      destruct out as [|x [|? ?]]; simpl in Hlen; try discriminate.
      simpl in Hlookup. inversion Hlookup. reflexivity.
    + apply Heval.
      * repeat constructor; eexists; (split; [reflexivity|]); reflexivity.
      * repeat constructor.
Defined.

(** ** Absent gradients *)

Lemma summary_grads_app (l1 l2 : GradientSet) (g : Graph) :
  summary_grads (l1 ++ l2) g = summary_grads l2 (summary_grads l1 g).
Proof. unfold summary_grads. apply fold_left_app. Qed.

(** [summary_grads] writes no histogram for an absent gradient. *)
Lemma summary_grads_skips_absent (l1 l2 : GradientSet) (v : Variable_) (g : Graph) :
  summary_grads (l1 ++ (None, v) :: l2) g = summary_grads (l1 ++ l2) g.
Proof. rewrite !summary_grads_app. reflexivity. Qed.

(** The histograms written are those of the gradients present, in order. *)
Lemma summary_grads_collection (gs : GradientSet) (g : Graph) :
  get_collection SUMMARIES (summary_grads gs g)
  = get_collection SUMMARIES g
    ++ omap (fun gv : option Tensor * Variable_ =>
               grad ← fst gv;
               Some (PyTensor (HistogramSummary (var_op_name (snd gv) +:+ "/gradients") grad)))
            gs.
Proof.
  revert g. induction gs as [|[[grad|] v] gs IH]; intros g.
  - simpl. rewrite app_nil_r. reflexivity.
  - change (summary_grads ((Some grad, v) :: gs) g)
      with (summary_grads gs (histogram_summary (var_op_name v +:+ "/gradients") grad g)).
    rewrite IH. simpl. unfold histogram_summary, add_to_collection, get_collection at 1.
    simpl. rewrite lookup_insert_eq. simpl. rewrite <- app_assoc. reflexivity.
  - change (summary_grads ((None, v) :: gs) g) with (summary_grads gs g).
    rewrite IH. reflexivity.
Qed.

(** A row with an absent gradient makes [average_gradients] raise. *)
Lemma average_gradients_absent_raises (tower_grads : list GradientSet)
    (row r1 r2 : list (option Tensor * Variable_)) (v : Variable_) :
  row ∈ zip_star tower_grads -> row = r1 ++ (None, v) :: r2 ->
  raises (average_gradients tower_grads).
Proof.
  intros Hin ->. apply list_elem_of_split in Hin as (rows1 & rows2 & Hrows).
  unfold average_gradients. rewrite Hrows. apply traverse_raises.
  destruct (traverse_raises (fun gv : option Tensor * Variable_ => tf_expand_dims (fst gv) 0)
              r1 r2 (None, v)) as [e He].
  { exists ValueError. reflexivity. }
  rewrite He. exists e. reflexivity.
Qed.

(** C4, on a model with a variable [b] the loss does not depend on.
    With one tower the entry for [b] reaches [apply_gradients] as
    [compute_gradients] gave it and gets no histogram; with two towers
    [average_gradients] raises on it, so that nothing is applied. *)
Theorem absent_gradient_one_and_two_towers :
  let absent := (None, Examples.b) in
  let gW := Output "gradients/W" float32 (Some [Some 2%nat]) in
  (exists built,
     build_graph (Ext := Examples.toy_model true)
                 (Examples.config_of 2 1 (PyBool true)) Examples.empty_graph
     = Ok built /\
     b_grads built = [(Some gW, Examples.W); absent] /\
     b_train_op built
     = ApplyGradients AdamOptimizer [(Some gW, Examples.W); absent]
                      (Output "global_step" int32 (Some []))
                      [ExternalOp "moving_average"] /\
     get_collection SUMMARIES (b_graph built)
     = [PyTensor (Output "activation_summary" tf_string (Some []));
        PyTensor (HistogramSummary "fc/W/gradients" gW)]) /\
  build_graph (Ext := Examples.toy_model true)
              (Examples.config_of 2 2 (PyBool true)) Examples.empty_graph
  = Raise ValueError.
Proof.
  split.
  - eexists. split; [vm_compute; reflexivity|]. repeat split; vm_compute; reflexivity.
  - vm_compute. reflexivity.
Qed.

(** ** The towers *)

Section Towers.
Context `{Ext : Externals}.
Variable config : TrainConfig.

Lemma replica_Ok g mi outs cost gs g2 :
  replica config g = Ok (mi, outs, cost, gs, g2) ->
  exists g1,
    get_model_inputs config g = Ok mi /\
    call_model_func (get_model_func config) mi true g = Ok (outs, cost, g1) /\
    compute_gradients (optimizer config) cost g1 = Ok (gs, g2).
Proof.
  unfold replica. intros H.
  bind_inv H. rename x into mi'. rename Hx into Hmi.
  bind_inv H. destruct x as [[outs' cost'] g1]. rename Hx into Hmodel.
  bind_inv H. destruct x as [gs' g2']. inversion H; subst.
  exists g1. auto.
Qed.

(** C3: with one tower, the gradients handed to [apply_gradients] are
    the list [compute_gradients] returned for the one replica, and the
    graph that leaves the tower stage is the one [compute_gradients]
    left: nothing is averaged, no collection is reset, variable reuse
    is not switched on. *)
Theorem single_tower_is_identity (g : Graph) (b : Built) :
  nr_tower config = 1%Z ->
  build_graph config g = Ok b ->
  exists mi outs cost g1 g2,
    get_model_inputs config (register_model config g) = Ok mi /\
    call_model_func (get_model_func config) mi true (register_model config g)
    = Ok (outs, cost, g1) /\
    compute_gradients (optimizer config) cost g1 = Ok (b_grads b, g2) /\
    build_towers config (register_model config g) = Ok (b_grads b, mi, outs, cost, g2) /\
    (exists step deps,
       b_train_op b = ApplyGradients (optimizer config) (b_grads b) step deps) /\
    b_model_inputs b = mi /\ b_output_vars b = outs /\ b_cost_var b = cost.
Proof.
  intros Hone H. unfold build_graph in H. cbv zeta in H.
  bind_inv H. destruct x as [[[[gs mi] outs] cost] g2]. rename Hx into Htowers.
  bind_inv H. destruct x as [avg g3].
  bind_inv H. destruct x as [step g4].
  bind_inv H. inversion H; subst b; clear H. simpl.
  pose proof Htowers as Hrep. unfold build_towers in Hrep. rewrite Hone in Hrep.
  change (1 <? 1)%Z with false in Hrep. cbv iota in Hrep.
  bind_inv Hrep. destruct x0 as [[[[mi' outs'] cost'] gs'] g2'].
  inversion Hrep; subst. apply replica_Ok in Hx2 as (g1 & Hmi & Hmodel & Hgrads).
  exists mi, outs, cost, g1, g2. repeat split; eauto.
Qed.

End Towers.

Lemma single_tower_is_identity_witness :
  exists built,
    build_graph (Ext := Examples.toy_model false)
                (Examples.config_of 2 1 (PyBool true)) Examples.empty_graph
    = Ok built /\
    b_grads built
    = [(Some (Output "gradients/W" float32 (Some [Some 2%nat])), Examples.W);
       (Some (Output "gradients/b" float32 (Some [Some 1%nat])), Examples.b)].
Proof.
  eexists. split; [vm_compute; reflexivity|].
  match goal with |- b_grads ?b = _ =>
    destruct (single_tower_is_identity (Ext := Examples.toy_model false)
                (Examples.config_of 2 1 (PyBool true)) Examples.empty_graph b
                eq_refl ltac:(vm_compute; reflexivity))
      as (mi & outs & cost & g1 & g2 & Hmi & Hmodel & Hgrads & _)
  end.
  vm_compute in Hmi. inversion Hmi; subst mi.
  vm_compute in Hmodel. inversion Hmodel; subst outs cost g1.
  vm_compute in Hgrads. inversion Hgrads. reflexivity.
Defined.

Section Deduplication.
Context `{Ext : Externals}.
Variable config : TrainConfig.

Lemma for_each_cons {S X} (body : S -> X -> result S) (x : X) (l : list X) (s : S) :
  for_each body (x :: l) s = rbind (body s x) (for_each body l).
Proof. reflexivity. Qed.

Lemma tower_Ok loc outer i loc' g' :
  tower config (loc, outer) i = Ok (loc', g') ->
  exists mi outs cost gs g2,
    replica config (enter_scope ("/gpu:" +:+ pretty i) ("tower" +:+ pretty i) outer)
    = Ok (mi, outs, cost, gs, g2) /\
    collections g' = collections g2 /\
    device g' = device outer /\ name_scope g' = name_scope outer /\
    (if (i =? 0)%nat
     then reuse g' = true /\
          kept_summaries loc'
          = fold_left (fun kept k => <[k := get_collection k g2]> kept)
                      (coll_keys) (kept_summaries loc)
     else reuse g' = reuse g2 /\ kept_summaries loc' = kept_summaries loc).
Proof.
  unfold tower. intros H. bind_inv H.
  destruct x as [[[[mi outs] cost] gs] g2].
  exists mi, outs, cost, gs, g2. split; [exact Hx|].
  destruct (i =? 0)%nat; inversion H; subst; simpl; auto.
Qed.

(** After tower 0, reuse is on and the kept lists are the collections
    as they are then. *)
Lemma tower_first loc outer loc0 g0 :
  tower config (loc, outer) 0 = Ok (loc0, g0) ->
  reuse g0 = true /\
  forall k, k ∈ coll_keys -> kept_summaries loc0 !! k = Some (get_collection k g0).
Proof.
  intros H. apply tower_Ok in H
    as (mi & outs & cost & gs & g2 & _ & Hcoll & _ & _ & Hreuse & Hkept).
  split; [exact Hreuse|]. intros k Hk. rewrite Hkept.
  unfold get_collection. rewrite Hcoll. unfold coll_keys in *. simpl.
  apply elem_of_cons in Hk as [->|Hk].
  - destruct (decide (MOVING_SUMMARY_VARS_KEY = SUMMARIES)) as [->|Hne].
    + rewrite lookup_insert_eq. reflexivity.
    + rewrite lookup_insert_ne, lookup_insert_eq by exact Hne. reflexivity.
  - apply list_elem_of_singleton in Hk as ->. rewrite lookup_insert_eq. reflexivity.
Qed.

(** What [restore_summaries] leaves of the graph. *)
Lemma restore_summaries_Ok (kept : gmap string (list pyobj)) (g : Graph) :
  (forall k, k ∈ coll_keys -> is_Some (kept !! k)) ->
  exists g', restore_summaries kept g = Ok g' /\
    (forall k l, k ∈ coll_keys -> kept !! k = Some l -> get_collection k g' = l) /\
    (forall k, k ∉ coll_keys -> get_collection k g' = get_collection k g) /\
    reuse g' = reuse g /\ device g' = device g /\ name_scope g' = name_scope g.
Proof.
  intros Hkept. unfold restore_summaries, coll_keys in *. simpl.
  destruct (Hkept SUMMARIES) as [l1 Hl1]; [apply elem_of_cons; auto|].
  destruct (Hkept MOVING_SUMMARY_VARS_KEY) as [l2 Hl2];
    [apply elem_of_cons; right; apply list_elem_of_singleton; reflexivity|].
  rewrite Hl1. simpl. rewrite Hl2. simpl. eexists. split; [reflexivity|].
  repeat split.
  - intros k l Hk Hl. unfold get_collection, set_collection. simpl.
    apply elem_of_cons in Hk as [->|Hk].
    + destruct (decide (MOVING_SUMMARY_VARS_KEY = SUMMARIES)) as [Heq|Hne].
      * rewrite Heq in *. rewrite !lookup_insert_eq. simpl. congruence.
      * rewrite lookup_insert_ne by exact Hne.
        rewrite !lookup_insert_eq. rewrite lookup_insert_ne by exact Hne.
        rewrite !lookup_insert_eq. simpl. congruence.
    + apply list_elem_of_singleton in Hk as ->.
      rewrite !lookup_insert_eq. simpl. congruence.
  - intros k Hk. unfold get_collection, set_collection. simpl.
    rewrite !lookup_insert_ne; [reflexivity|..];
      intros <-; apply Hk; rewrite !elem_of_cons; auto.
Qed.

Lemma seq_from_1 (n : nat) : Forall (fun i => i <> 0%nat) (seq 1 n).
Proof. apply List.Forall_forall. intros i Hi. apply in_seq in Hi. lia. Qed.

(** Later towers leave the kept lists alone, and leave reuse on when
    the model function and the optimizer do. *)
Lemma later_towers (l : list nat) loc g loc' g' :
  Forall (fun i => i <> 0%nat) l ->
  for_each (tower config) l (loc, g) = Ok (loc', g') ->
  kept_summaries loc' = kept_summaries loc /\
  ((forall f mi t g outs cost g',
      call_model_func f mi t g = Ok (outs, cost, g') -> reuse g = true -> reuse g' = true) ->
   (forall opt cost g gs g',
      compute_gradients opt cost g = Ok (gs, g') -> reuse g = true -> reuse g' = true) ->
   reuse g = true -> reuse g' = true).
Proof.
  intros Hl. revert loc g. induction Hl as [|i l Hi Hl IH]; intros loc g H.
  - inversion H; subst. auto.
  - simpl in H. bind_inv H. destruct x as [loc1 g1].
    destruct (IH _ _ H) as [Hkept Hreuse].
    apply tower_Ok in Hx
      as (mi & outs & cost & gs & g2 & Hrep & _ & _ & _ & Hcase).
    destruct (Nat.eqb_spec i 0) as [|_]; [contradiction|].
    destruct Hcase as [Hr Hk]. split; [congruence|].
    intros Hmodel Hgrads Hon. apply Hreuse; try assumption.
    rewrite Hr. apply replica_Ok in Hrep as (g1' & _ & Hm & Hg).
    eapply Hgrads; [exact Hg|]. eapply Hmodel; [exact Hm|]. exact Hon.
Qed.

(** The tower loop followed by the restoring of the collections. *)
Lemma tower_loop_then_restore (g : Graph) loc0 g0 loc g_all :
  (1 < nr_tower config)%Z ->
  tower config (no_locals, g) 0 = Ok (loc0, g0) ->
  for_each (tower config) (range (nr_tower config)) (no_locals, g) = Ok (loc, g_all) ->
  reuse g0 = true /\
  ((forall f mi t g outs cost g',
      call_model_func f mi t g = Ok (outs, cost, g') -> reuse g = true -> reuse g' = true) ->
   (forall opt cost g gs g',
      compute_gradients opt cost g = Ok (gs, g') -> reuse g = true -> reuse g' = true) ->
   forall i st, (1 <= i)%nat ->
     for_each (tower config) (seq 0 i) (no_locals, g) = Ok st -> reuse (snd st) = true) /\
  exists g',
    restore_summaries (kept_summaries loc) g_all = Ok g' /\
    (forall k, k ∈ coll_keys -> get_collection k g' = get_collection k g0) /\
    (forall k, k ∉ coll_keys -> get_collection k g' = get_collection k g_all) /\
    reuse g' = reuse g_all /\ device g' = device g_all /\
    name_scope g' = name_scope g_all.
Proof.
  intros Hmany H0 Hloop.
  destruct (tower_first _ _ _ _ H0) as [Hreuse Hkept0].
  split; [exact Hreuse|]. split.
  - intros Hmodel Hgrads i [loc_i g_i] Hi Hfor.
    destruct i as [|i]; [lia|]. cbn [seq] in Hfor.
    rewrite for_each_cons, H0 in Hfor. cbn [rbind] in Hfor.
    apply later_towers in Hfor as [_ Hon]; [|apply seq_from_1].
    simpl. apply Hon; assumption.
  - unfold range in Hloop.
    destruct (Z.to_nat (nr_tower config)) as [|m] eqn:Hn; [lia|].
    cbn [seq] in Hloop. rewrite for_each_cons, H0 in Hloop. cbn [rbind] in Hloop.
    apply later_towers in Hloop as [Hkept _]; [|apply seq_from_1].
    destruct (restore_summaries_Ok (kept_summaries loc) g_all)
      as (g' & Hrestore & Hkeys & Hothers & Hrest).
    { intros k Hk. rewrite Hkept. rewrite (Hkept0 k Hk). eexists. reflexivity. }
    exists g'. split; [exact Hrestore|]. split; [|split; [exact Hothers | exact Hrest]].
    intros k Hk. apply Hkeys; [exact Hk|]. rewrite Hkept. apply Hkept0. exact Hk.
Qed.

Lemma towers_bind_cost (l : list nat) st loc' g' :
  l <> [] ->
  for_each (tower config) l st = Ok (loc', g') ->
  is_Some (cost_var loc').
Proof.
  revert st. induction l as [|i l IH]; intros st Hne H; [congruence|].
  rewrite for_each_cons in H. bind_inv H. destruct l as [|i' l].
  - simpl in H. inversion H; subst x. destruct st as [loc outer].
    unfold tower in Hx. bind_inv Hx. destruct x as [[[[mi outs] cost] gs] g2].
    destruct (i =? 0)%nat; inversion Hx; subst; simpl; eauto.
  - apply (IH x); [discriminate | exact H].
Qed.

(** C9: when [start_train] builds more than one tower, variable reuse
    is on once tower 0 is built, and stays on for the towers after it
    when the model function and the optimizer do not switch it off;
    the graph it goes on with has the [SUMMARIES] and moving-summary
    collections as they were when tower 0 was built, and every other
    collection, and the rest of the graph, as the towers made it; the
    gradients it goes on with are the average of the towers'.  It gets
    that far whenever the towers are built and their gradients can be
    averaged, and what the built graph trains with is what the towers
    gave, built on the graph the model function and the input
    variables were registered in. *)
Theorem towers_share_and_summaries_kept (g : Graph) :
  (1 < nr_tower config)%Z ->
  (forall gs mi outs cost g',
     build_towers config g = Ok (gs, mi, outs, cost, g') ->
     exists loc0 g0 loc g_all,
       tower config (no_locals, g) 0 = Ok (loc0, g0) /\
       for_each (tower config) (range (nr_tower config)) (no_locals, g)
       = Ok (loc, g_all) /\
       average_gradients (grads loc) = Ok gs /\
       reuse g0 = true /\
       ((forall f mi t g outs cost g',
           call_model_func f mi t g = Ok (outs, cost, g') ->
           reuse g = true -> reuse g' = true) ->
        (forall opt cost g gs g',
           compute_gradients opt cost g = Ok (gs, g') ->
           reuse g = true -> reuse g' = true) ->
        forall i st, (1 <= i)%nat ->
          for_each (tower config) (seq 0 i) (no_locals, g) = Ok st ->
          reuse (snd st) = true) /\
       (forall k, k ∈ coll_keys -> get_collection k g' = get_collection k g0) /\
       (forall k, k ∉ coll_keys -> get_collection k g' = get_collection k g_all) /\
       reuse g' = reuse g_all /\ device g' = device g_all /\
       name_scope g' = name_scope g_all) /\
  (forall loc g_all gs,
     for_each (tower config) (range (nr_tower config)) (no_locals, g)
     = Ok (loc, g_all) ->
     average_gradients (grads loc) = Ok gs ->
     exists mi outs cost g', build_towers config g = Ok (gs, mi, outs, cost, g')) /\
  (forall g_in b,
     g = register_model config g_in ->
     build_graph config g_in = Ok b ->
     exists g', build_towers config g
                = Ok (b_grads b, b_model_inputs b, b_output_vars b, b_cost_var b, g')).
Proof.
  intros Hmany.
  assert (Hgraph : forall g_in b,
            g = register_model config g_in ->
            build_graph config g_in = Ok b ->
            exists g', build_towers config g
                       = Ok (b_grads b, b_model_inputs b, b_output_vars b,
                             b_cost_var b, g')).
  { intros g_in b -> H. unfold build_graph in H. cbv zeta in H.
    bind_inv H. destruct x as [[[[gs mi] outs] cost] g2].
    bind_inv H. destruct x as [avg g3].
    bind_inv H. destruct x as [step g4].
    bind_inv H. inversion H; subst b; clear H. simpl. eauto. }
  assert (Hfirst : forall loc g_all,
            for_each (tower config) (range (nr_tower config)) (no_locals, g)
            = Ok (loc, g_all) ->
            exists loc0 g0, tower config (no_locals, g) 0 = Ok (loc0, g0)).
  { intros loc g_all Hloop. unfold range in Hloop.
    destruct (Z.to_nat (nr_tower config)) as [|m] eqn:Hn; [lia|].
    cbn [seq] in Hloop. rewrite for_each_cons in Hloop.
    destruct (tower config (no_locals, g) 0) as [[loc0 g0]|e]; [eauto | discriminate]. }
  split; [|split; [|exact Hgraph]]; clear Hgraph; unfold build_towers;
    replace (1 <? nr_tower config)%Z with true by (symmetry; apply Z.ltb_lt; exact Hmany).
  - intros gs mi outs cost g' H.
    bind_inv H. destruct x as [loc g_all]. rename Hx into Hloop.
    bind_inv H. rename x into g_r. rename Hx into Hrestore.
    bind_inv H. rename x into gs_avg. rename Hx into Havg.
    destruct (cost_var loc) as [cost'|]; [|discriminate].
    inversion H; subst; clear H.
    destruct (Hfirst loc g_all Hloop) as (loc0 & g0 & H0).
    destruct (tower_loop_then_restore g loc0 g0 loc g_all Hmany H0 Hloop)
      as (Hreuse & Hlater & g'' & Hrestore' & Hrest).
    rewrite Hrestore in Hrestore'. inversion Hrestore'; subst g''.
    exists loc0, g0, loc, g_all. auto 10.
  - intros loc g_all gs Hloop Havg. rewrite Hloop. cbn [rbind].
    destruct (Hfirst loc g_all Hloop) as (loc0 & g0 & H0).
    destruct (tower_loop_then_restore g loc0 g0 loc g_all Hmany H0 Hloop)
      as (_ & _ & g' & Hrestore & _).
    rewrite Hrestore. cbn [rbind]. rewrite Havg. cbn [rbind].
    assert (Hne : range (nr_tower config) <> []).
    { unfold range. destruct (Z.to_nat (nr_tower config)) eqn:Hn; [lia|].
      simpl. discriminate. }
    destruct (towers_bind_cost _ _ _ _ Hne Hloop) as [cost Hcost].
    rewrite Hcost. eauto 10.
Qed.

End Deduplication.

Lemma towers_share_and_summaries_kept_witness :
  exists b mi outs cost g',
    build_graph (Ext := Examples.toy_model false)
                (Examples.config_of 2 2 (PyBool true)) Examples.empty_graph
    = Ok b /\
    build_towers (Ext := Examples.toy_model false)
                 (Examples.config_of 2 2 (PyBool true))
                 (register_model (Ext := Examples.toy_model false)
                    (Examples.config_of 2 2 (PyBool true)) Examples.empty_graph)
    = Ok (b_grads b, mi, outs, cost, g') /\
    map fst (b_grads b)
    = [Some (ReduceMean
               (Concat 0
                  [ExpandDims (Output "tower0/gradients/W" float32 (Some [Some 2%nat])) 0;
                   ExpandDims (Output "tower1/gradients/W" float32 (Some [Some 2%nat])) 0])
               0);
       Some (ReduceMean
               (Concat 0
                  [ExpandDims (Output "tower0/gradients/b" float32 (Some [Some 1%nat])) 0;
                   ExpandDims (Output "tower1/gradients/b" float32 (Some [Some 1%nat])) 0])
               0)] /\
    reuse g' = true /\
    get_collection SUMMARIES g'
    = [PyTensor (Output "tower0/activation_summary" tf_string (Some []))].
Proof.
  destruct (build_graph (Ext := Examples.toy_model false)
              (Examples.config_of 2 2 (PyBool true)) Examples.empty_graph)
    as [b|] eqn:Hgraph; [|vm_compute in Hgraph; discriminate].
  pose proof (towers_share_and_summaries_kept (Ext := Examples.toy_model false)
                (Examples.config_of 2 2 (PyBool true))
                (register_model (Ext := Examples.toy_model false)
                   (Examples.config_of 2 2 (PyBool true)) Examples.empty_graph)
                ltac:(simpl; lia)) as (Hbuilt & _ & Hcalled).
  destruct (Hcalled Examples.empty_graph b eq_refl Hgraph) as [g' Hb].
  exists b, (b_model_inputs b), (b_output_vars b), (b_cost_var b), g'.
  split; [reflexivity|]. split; [exact Hb|].
  remember (b_grads b) as gs eqn:Egs.
  destruct (Hbuilt _ _ _ _ _ Hb)
    as (loc0 & g0 & loc' & g_all' & H0 & Hloop' & Havg' & _ & Hlater & Hkeys & _ & Hr & _).
  split; [|split].
  - pose proof Hloop' as Hloc. vm_compute in Hloc. inversion Hloc; subst loc'.
    vm_compute in Havg'. inversion Havg'. reflexivity.
  - rewrite Hr.
    apply (Hlater
             ltac:(intros f mi0 t g outs0 cost0 g1 Hcall Hon; destruct f;
                   try discriminate; inversion Hcall; subst; exact Hon)
             ltac:(intros opt cost0 g gs0 g1 Hcall Hon; inversion Hcall; subst;
                   exact Hon)
             2%nat (loc', g_all') ltac:(lia) Hloop').
  - rewrite (Hkeys SUMMARIES ltac:(apply elem_of_cons; left; reflexivity)).
    vm_compute in H0. inversion H0. vm_compute. reflexivity.
Defined.

(** ** The two ends of the queue *)

Section QueueEnds.
Import Numeric.

Lemma unstack_Ok (v : ndarray) (n : nat) (s : list nat) :
  shape v = n :: s ->
  exists c, unstack v = Ok c /\ length c = n /\ Forall (fun r => shape r = s) c.
Proof.
  intros Hs. unfold unstack. rewrite Hs. eexists. split; [reflexivity|]. split.
  - rewrite length_map, length_seq. reflexivity.
  - apply List.Forall_forall. intros r Hr. apply in_map_iff in Hr as (k & <- & _).
    reflexivity.
Qed.

(** A row of the transposition takes one slice of every value. *)
Lemma record_shapes (k : nat) (vals : list ndarray) (columns : list (list ndarray))
    (record : list ndarray) :
  Forall2 (fun v c => Forall (fun r => shape r = tail (shape v)) c) vals columns ->
  Forall2 (fun (c : list ndarray) r => c !! k = Some r) columns record ->
  Forall2 (fun r v => shape r = tail (shape v)) record vals.
Proof.
  intros Hcols. revert record.
  induction Hcols as [|v c vals columns Hc Hcols IH]; intros record Hrow.
  - inversion Hrow. constructor.
  - inversion Hrow as [|? r ? record' Hr Hrow']; subst. constructor.
    + rewrite List.Forall_forall in Hc. apply Hc.
      apply list_elem_of_In, list_elem_of_lookup. exists k. exact Hr.
    + apply IH. exact Hrow'.
Qed.

(** [enqueue_many] of values with [n] slices each appends [n] records;
    each element of a record has the shape of the value it was sliced
    from without its first dimension. *)
Lemma enqueue_many_records (q : QueueBase) (ins : list Tensor)
    (vals : list ndarray) (n : nat) :
  vals <> [] ->
  Forall (fun v => exists s, shape v = n :: s) vals ->
  exists records,
    enqueued_records (QueueEnqueueMany q ins) vals = Ok records /\
    length records = n /\
    Forall (fun record => Forall2 (fun r v => shape r = tail (shape v)) record vals)
           records.
Proof.
  intros Hne Hvals.
  assert (Htotal : Forall (fun v => exists c, unstack v = Ok c) vals).
  { eapply Forall_impl; [exact Hvals|]. simpl. intros v [s Hs].
    destruct (unstack_Ok v n s Hs) as (c & Hc & _). eauto. }
  apply traverse_total in Htotal as [columns Hcolumns].
  pose proof Hcolumns as Hcols. apply traverse_Ok in Hcols.
  assert (Hlen : Forall (fun c : list ndarray => length c = n) columns).
  { clear Hcolumns Hne. induction Hcols as [|v c vals columns Hc Hcols IH];
      [constructor|].
    inversion Hvals as [|? ? [s Hs] Hvals']; subst.
    destruct (unstack_Ok v n s Hs) as (c' & Hc' & Hn & _).
    rewrite Hc in Hc'. inversion Hc'; subst c'. constructor; auto. }
  assert (Hshapes : Forall2 (fun v c => Forall (fun r => shape r = tail (shape v)) c)
                            vals columns).
  { clear Hcolumns Hne Hlen. induction Hcols as [|v c vals columns Hc Hcols IH];
      [constructor|].
    inversion Hvals as [|? ? [s Hs] Hvals']; subst.
    destruct (unstack_Ok v n s Hs) as (c' & Hc' & _ & Hall).
    rewrite Hc in Hc'. inversion Hc'; subst c'. constructor; [|auto].
    rewrite Hs. exact Hall. }
  assert (Hcne : columns <> []).
  { intros ->. inversion Hcols. congruence. }
  exists (zip_star columns). split; [|split].
  - unfold enqueued_records. rewrite Hcolumns. simpl.
    destruct columns as [|c0 columns']; [congruence|].
    replace (forallb _ (c0 :: columns')) with true; [reflexivity|].
    symmetry. apply forallb_forall. intros c Hin. apply Nat.eqb_eq.
    rewrite List.Forall_forall in Hlen.
    rewrite (Hlen c Hin), (Hlen c0 (or_introl eq_refl)). reflexivity.
  - apply zip_star_length; assumption.
  - apply List.Forall_forall. intros record Hin.
    apply list_elem_of_In, list_elem_of_lookup in Hin as [k Hk].
    rewrite zip_star_lookup in Hk by exact Hcne. apply mapM_Some in Hk.
    eapply record_shapes; eassumption.
Qed.

Variable config : TrainConfig.

Lemma dequeue_lookup (q : QueueBase) (scope : string) (i : nat) (t : Tensor) :
  dequeue q scope !! i = Some t ->
  exists name dt, t = Output name dt (default unknown_shape (q_shapes q !! i)).
Proof.
  unfold dequeue. rewrite list_lookup_imap. destruct (q_dtypes q !! i); simpl;
    intros H; inversion H. eauto.
Qed.

Lemma dequeue_length' (q : QueueBase) (scope : string) :
  length (dequeue q scope) = length (q_dtypes q).
Proof. unfold dequeue. apply length_imap. Qed.

Lemma get_model_inputs_Ok (g : Graph) (mi : list Tensor) :
  get_model_inputs config g = Ok mi ->
  exists shaped,
    Forall2 (fun (qv_v : Tensor * Tensor) y =>
               exists s, model_input_shape config (snd qv_v) = Ok s
                         /\ set_shape (fst qv_v) s = Ok y)
            (zip (dequeue (input_queue config) (name_scope g)) (inputs config)) shaped
    /\ mi = shaped ++ drop (length (inputs config))
                           (dequeue (input_queue config) (name_scope g)).
Proof.
  unfold get_model_inputs. intros H.
  assert (H' : exists shaped,
             traverse (fun qv_v : Tensor * Tensor =>
                         (let* s := model_input_shape config (snd qv_v) in
                          set_shape (fst qv_v) s)%result)
                      (zip (dequeue (input_queue config) (name_scope g)) (inputs config))
             = Ok shaped
             /\ mi = shaped ++ drop (length (inputs config))
                                    (dequeue (input_queue config) (name_scope g))).
  { destruct (dequeue (input_queue config) (name_scope g)) as [|a [|a' l]];
      try discriminate; bind_inv H; inversion H; eauto. }
  destruct H' as (shaped & Htr & ->). exists shaped. split; [|reflexivity].
  apply traverse_Ok in Htr. eapply Forall2_impl; [exact Htr|]. simpl.
  intros [qv v] y Hy. bind_inv Hy. eauto.
Qed.

(** The static shape of a dequeued element: the shape the queue has for
    the component, merged with the one [get_model_inputs] sets. *)
Lemma model_input_shapes (g : Graph) (mi : list Tensor) (i : nat) (qv v : Tensor) :
  get_model_inputs config g = Ok mi ->
  mi !! i = Some qv -> inputs config !! i = Some v ->
  exists s, model_input_shape config v = Ok s /\
    merge_with (default unknown_shape (q_shapes (input_queue config) !! i)) s
    = Ok (get_shape qv).
Proof.
  intros Hmi Hqv Hv. apply get_model_inputs_Ok in Hmi as (shaped & Hshaped & ->).
  pose proof (Forall2_length _ _ _ Hshaped) as Hlen. rewrite length_zip_with in Hlen.
  apply lookup_lt_Some in Hv as Hi.
  destruct (decide (i < length shaped)%nat) as [Hlt|Hge].
  - rewrite lookup_app_l in Hqv by exact Hlt.
    destruct (Forall2_lookup_r _ _ _ _ _ Hshaped Hqv) as ([dq v'] & Hzip & s & Hs & Hset).
    apply lookup_zip_with_Some in Hzip as (dq' & v'' & Heq & Hdq & Hv').
    inversion Heq; subst dq' v''. rewrite Hv in Hv'. inversion Hv'; subst v'.
    simpl in *. exists s. split; [exact Hs|].
    apply dequeue_lookup in Hdq as (name & dt & ->). simpl in Hset.
    bind_inv Hset. inversion Hset; subst qv. exact Hx.
  - rewrite lookup_app_r in Hqv by lia. rewrite lookup_drop in Hqv.
    apply lookup_lt_Some in Hqv. lia.
Qed.

Lemma merge_with_unknown (s : TensorShape) : merge_with unknown_shape s = Ok s.
Proof. reflexivity. Qed.

(** Element [i] of the model inputs: the tensor dequeued for component
    [i], with the shape [get_model_inputs] has set where there is an
    input variable for it. *)
Lemma model_input_at (g : Graph) (mi : list Tensor) (i : nat) (dt : dtype) :
  get_model_inputs config g = Ok mi ->
  q_dtypes (input_queue config) !! i = Some dt ->
  let qs := default unknown_shape (q_shapes (input_queue config) !! i) in
  exists s,
    mi !! i = Some (Output (name_scope g +:+ q_name (input_queue config)
                            +:+ "_Dequeue:" +:+ pretty i) dt s) /\
    match inputs config !! i with
    | Some v => exists t, model_input_shape config v = Ok t /\ merge_with qs t = Ok s
    | None => s = qs
    end.
Proof.
  intros Hmi Hdt qs. apply get_model_inputs_Ok in Hmi as (shaped & Hshaped & ->).
  set (deq := dequeue (input_queue config) (name_scope g)) in *.
  assert (Hdq : deq !! i = Some (Output (name_scope g +:+ q_name (input_queue config)
                                         +:+ "_Dequeue:" +:+ pretty i) dt qs)).
  { unfold deq, dequeue. rewrite list_lookup_imap, Hdt. reflexivity. }
  pose proof (Forall2_length _ _ _ Hshaped) as Hlen. rewrite length_zip_with in Hlen.
  destruct (inputs config !! i) as [v|] eqn:Hv.
  - assert (Hzip : zip deq (inputs config) !! i
                   = Some (Output (name_scope g +:+ q_name (input_queue config)
                                   +:+ "_Dequeue:" +:+ pretty i) dt qs, v)).
    { apply lookup_zip_with_Some. eauto. }
    destruct (Forall2_lookup_l _ _ _ _ _ Hshaped Hzip) as (y & Hy & t & Ht & Hset).
    simpl in Ht, Hset. bind_inv Hset. inversion Hset; subst y.
    exists x. split; [|eauto]. apply lookup_app_l_Some. exact Hy.
  - exists qs. split; [|reflexivity].
    apply lookup_ge_None in Hv. apply lookup_lt_Some in Hdq as Hi.
    rewrite lookup_app_r by lia. rewrite lookup_drop. rewrite <- Hdq. f_equal. lia.
Qed.

(** When [get_model_inputs] returns: for a queue of other than one
    component and without static shapes, as the default one, with
    batched input or inputs of known rank. *)
Lemma get_model_inputs_returns (g : Graph) :
  length (q_dtypes (input_queue config)) <> 1%nat ->
  Forall (fun s => s = unknown_shape) (q_shapes (input_queue config)) ->
  (truthy (batched_model_input config) = true \/
   Forall (fun v => is_Some (get_shape v)) (inputs config)) ->
  exists mi, get_model_inputs config g = Ok mi.
Proof.
  intros Hlen Hq Hins. unfold get_model_inputs.
  set (deq := dequeue (input_queue config) (name_scope g)).
  assert (Hdeq : Forall (fun dq => exists name dt, dq = Output name dt unknown_shape) deq).
  { apply List.Forall_forall. intros dq Hin.
    apply list_elem_of_In, list_elem_of_lookup in Hin as [i Hi].
    apply dequeue_lookup in Hi as (name & dt & ->). exists name, dt. f_equal.
    destruct (q_shapes (input_queue config) !! i) as [s|] eqn:Hs; [|reflexivity].
    simpl. rewrite List.Forall_forall in Hq. apply Hq.
    apply list_elem_of_In, list_elem_of_lookup. eauto. }
  assert (Htr : exists shaped,
            traverse (fun qv_v : Tensor * Tensor =>
                        (let* s := model_input_shape config (snd qv_v) in
                         set_shape (fst qv_v) s)%result)
                     (zip deq (inputs config)) = Ok shaped).
  { apply traverse_total. apply List.Forall_forall. intros [dq v] Hin.
    apply list_elem_of_In, list_elem_of_lookup in Hin as [i Hi].
    apply lookup_zip_with_Some in Hi as (dq' & v' & Heq & Hdq & Hv).
    inversion Heq; subst dq' v'.
    rewrite List.Forall_forall in Hdeq.
    destruct (Hdeq dq) as (name & dt & ->).
    { apply list_elem_of_In, list_elem_of_lookup. eauto. }
    simpl. unfold model_input_shape.
    destruct Hins as [Hflag|Hrank].
    - rewrite Hflag. simpl. eauto.
    - destruct (truthy (batched_model_input config)); simpl; [eauto|].
      rewrite List.Forall_forall in Hrank. destruct (Hrank v) as [dims Hdims].
      { apply list_elem_of_In, list_elem_of_lookup. eauto. }
      rewrite Hdims. simpl. eauto. }
  destruct Htr as [shaped Htr].
  assert (Hl : length deq <> 1%nat) by (unfold deq; rewrite dequeue_length'; exact Hlen).
  destruct deq as [|a [|a' l]]; [| simpl in Hl; congruence |];
    rewrite Htr; simpl; eauto.
Qed.

(** C8: the model inputs are the tensors dequeued from the input queue,
    one per component, each with its dtype.  A true
    [batched_model_input] makes the enqueue op an [enqueue], which
    appends the fed values as one record, and gives every dequeued
    element the whole configured shape; a false one makes it an
    [enqueue_many], which appends as many records as the fed values
    have slices, and gives every dequeued element the configured shape
    without its first dimension.  The shape given is merged with the
    one the queue has for the component, and is the result when the
    queue has none.  For the default queue and more than one input,
    [get_model_inputs] does return, with inputs of known rank when the
    flag is false. *)
Theorem batched_model_input_both_ends (g : Graph) :
  (forall mi, get_model_inputs config g = Ok mi ->
   length mi = length (q_dtypes (input_queue config)) /\
   (forall i dt, q_dtypes (input_queue config) !! i = Some dt ->
      exists s, mi !! i = Some (Output (name_scope g +:+ q_name (input_queue config)
                                        +:+ "_Dequeue:" +:+ pretty i) dt s) /\
                (inputs config !! i = None ->
                 s = default unknown_shape (q_shapes (input_queue config) !! i))) /\
   (truthy (batched_model_input config) = true ->
    enqueue_op config = QueueEnqueue (input_queue config) (inputs config) /\
    (forall vals, enqueued_records (enqueue_op config) vals = Ok [vals]) /\
    (forall i qv v, mi !! i = Some qv -> inputs config !! i = Some v ->
       let qs := default unknown_shape (q_shapes (input_queue config) !! i) in
       merge_with qs (get_shape v) = Ok (get_shape qv) /\
       (qs = unknown_shape -> get_shape qv = get_shape v))) /\
   (truthy (batched_model_input config) = false ->
    enqueue_op config = QueueEnqueueMany (input_queue config) (inputs config) /\
    (forall vals n, vals <> [] ->
       Forall (fun v => exists s, shape v = n :: s) vals ->
       exists records,
         enqueued_records (enqueue_op config) vals = Ok records /\
         length records = n /\
         Forall (fun record =>
                   Forall2 (fun r v => shape r = tail (shape v)) record vals)
                records) /\
    (forall i qv v, mi !! i = Some qv -> inputs config !! i = Some v ->
       let qs := default unknown_shape (q_shapes (input_queue config) !! i) in
       exists dims, get_shape v = Some dims /\
         merge_with qs (Some (tail dims)) = Ok (get_shape qv) /\
         (qs = unknown_shape -> get_shape qv = Some (tail dims))))) /\
  (length (q_dtypes (input_queue config)) <> 1%nat ->
   Forall (fun s => s = unknown_shape) (q_shapes (input_queue config)) ->
   (truthy (batched_model_input config) = true \/
    Forall (fun v => is_Some (get_shape v)) (inputs config)) ->
   exists mi, get_model_inputs config g = Ok mi).
Proof.
  split; [|apply get_model_inputs_returns].
  intros mi Hmi. split; [|split; [|split]].
  - pose proof Hmi as H. apply get_model_inputs_Ok in H as (shaped & Hshaped & ->).
    pose proof (Forall2_length _ _ _ Hshaped) as Hlen.
    rewrite length_zip_with, dequeue_length' in Hlen.
    rewrite length_app, length_drop, dequeue_length'. lia.
  - intros i dt Hdt.
    destruct (model_input_at g mi i dt Hmi Hdt) as (s & Hs & Hcase).
    exists s. split; [exact Hs|]. intros Hnone. rewrite Hnone in Hcase. exact Hcase.
  - intros Hflag.
    assert (Hop : enqueue_op config
                  = QueueEnqueue (input_queue config) (inputs config)).
    { unfold enqueue_op. rewrite Hflag. reflexivity. }
    split; [exact Hop|]. split; [intros vals; rewrite Hop; reflexivity|].
    intros i qv v Hqv Hv qs.
    destruct (model_input_shapes g mi i qv v Hmi Hqv Hv) as (s & Hs & Hmerge).
    unfold model_input_shape in Hs. rewrite Hflag in Hs. inversion Hs; subst s.
    split; [exact Hmerge|]. intros Hqs. fold qs in Hmerge. rewrite Hqs in Hmerge.
    rewrite merge_with_unknown in Hmerge. inversion Hmerge. reflexivity.
  - intros Hflag.
    assert (Hop : enqueue_op config
                  = QueueEnqueueMany (input_queue config) (inputs config)).
    { unfold enqueue_op. rewrite Hflag. reflexivity. }
    split; [exact Hop|]. split.
    { intros vals n Hne Hvals. rewrite Hop. apply enqueue_many_records; assumption. }
    intros i qv v Hqv Hv qs.
    destruct (model_input_shapes g mi i qv v Hmi Hqv Hv) as (s & Hs & Hmerge).
    unfold model_input_shape in Hs. rewrite Hflag in Hs.
    bind_inv Hs. inversion Hs; subst s. rename x into dims.
    exists dims. split.
    { destruct (get_shape v); inversion Hx. reflexivity. }
    split; [exact Hmerge|]. intros Hqs. fold qs in Hmerge. rewrite Hqs in Hmerge.
    rewrite merge_with_unknown in Hmerge. inversion Hmerge. reflexivity.
Qed.

End QueueEnds.

Lemma batched_model_input_both_ends_witness :
  (exists mi,
     get_model_inputs (Examples.config_of 2 1 (PyBool true)) Examples.empty_graph = Ok mi /\
     length mi = 2%nat /\
     exists qv, mi !! 0%nat = Some qv /\
                get_shape qv = Some [None; Some 28; Some 28]%nat) /\
  (exists mi,
     get_model_inputs (Examples.config_of 2 1 (PyBool false)) Examples.empty_graph = Ok mi /\
     length mi = 2%nat /\
     exists qv, mi !! 0%nat = Some qv /\ get_shape qv = Some [Some 28; Some 28]%nat) /\
  (exists records,
     enqueued_records (enqueue_op (Examples.config_of 2 1 (PyBool false)))
                      [Examples.images; Examples.labels] = Ok records /\
     length records = 2%nat /\
     Forall (fun record =>
               Forall2 (fun r v => Numeric.shape r = tail (Numeric.shape v)) record
                       [Examples.images; Examples.labels])
            records).
Proof.
  pose proof (batched_model_input_both_ends
                (Examples.config_of 2 1 (PyBool true)) Examples.empty_graph) as [Hb Hbr].
  pose proof (batched_model_input_both_ends
                (Examples.config_of 2 1 (PyBool false)) Examples.empty_graph) as [Hu Hur].
  destruct Hbr as [mib Hmib];
    [simpl; lia | repeat constructor | left; reflexivity |].
  destruct Hur as [miu Hmiu];
    [simpl; lia | repeat constructor | right; repeat constructor; eexists; reflexivity |].
  destruct (Hb mib Hmib) as (Hlb & Hatb & Hbt & _).
  destruct (Hu miu Hmiu) as (Hlu & Hatu & _ & Huf).
  split; [|split].
  - exists mib. split; [exact Hmib|]. split; [exact Hlb|].
    destruct (Hatb 0%nat float32 eq_refl) as (s & Hs & _).
    eexists. split; [exact Hs|].
    destruct (Hbt eq_refl) as (_ & _ & Hshape).
    apply (proj2 (Hshape 0%nat _ Examples.image Hs eq_refl)). reflexivity.
  - exists miu. split; [exact Hmiu|]. split; [exact Hlu|].
    destruct (Hatu 0%nat float32 eq_refl) as (s & Hs & _).
    eexists. split; [exact Hs|].
    destruct (Huf eq_refl) as (_ & _ & Hshape).
    destruct (Hshape 0%nat _ Examples.image Hs eq_refl) as (dims & Hdims & _ & Heq).
    rewrite (Heq eq_refl). inversion Hdims. reflexivity.
  - destruct (Huf eq_refl) as (_ & Hrec & _).
    apply Hrec; [discriminate | repeat constructor; eexists; reflexivity].
Defined.

(** * Further properties *)

(** ** TrainConfig: required arguments, defaults, types *)

Module ConfigMore.
Import Config ConfigFacts.

(** The other fields of a constructed configuration. *)
Lemma init_Ok_fields kwargs c :
  init kwargs = Ok c ->
  kwargs !! "callbacks" = Some (PyCallbacks (callbacks c)) /\
  kwargs !! "get_model_func" = Some (get_model_func c) /\
  default (PyOptimizer AdamOptimizer) (kwargs !! "optimizer")
  = PyOptimizer (optimizer c) /\
  default (PyConfigProto default_sess_config) (kwargs !! "session_config")
  = PyConfigProto (session_config c) /\
  default (PySessionInit NewSession) (kwargs !! "session_init")
  = PySessionInit (session_init c) /\
  default (PyBool true) (kwargs !! "batched_model_input") = batched_model_input c.
Proof.
  unfold init. intros H.
  bind_inv H. destruct x as [v m]. apply pop_Ok in Hx as [Hds ->].
  bind_inv H. clear Hx. rename x into ds.
  rewrite pop_default_eq in H.
  bind_inv H. apply as_Optimizer_Ok in Hx. rename Hx into Hopt. rename x into opt.
  bind_inv H. destruct x as [v' m]. apply pop_Ok in Hx as [Hcb ->].
  bind_inv H. apply as_Callbacks_Ok in Hx. subst v'. rename x into cb.
  rewrite pop_default_eq in H.
  bind_inv H. apply as_ConfigProto_Ok in Hx. rename Hx into Hsc. rename x into sc.
  rewrite pop_default_eq in H.
  bind_inv H. apply as_SessionInit_Ok in Hx. rename Hx into Hsi. rename x into si.
  bind_inv H. destruct x as [v'' m]. apply pop_Ok in Hx as [_ ->].
  bind_inv H. clear Hx. rename x into items.
  bind_inv H. clear Hx. rename x into ins.
  bind_inv H. apply new_FIFOQueue_Ok in Hx as [-> _].
  rewrite pop_default_eq in H.
  bind_inv H. clear Hx. rename x into q.
  bind_inv H. clear Hx x.
  bind_inv H. destruct x as [f m]. apply pop_Ok in Hx as [Hf ->].
  rewrite pop_default_eq in H.
  rewrite pop_default_eq in H.
  bind_inv H. clear Hx. rename x into steps.
  rewrite pop_default_eq in H.
  bind_inv H. clear Hx. rename x into epochs.
  bind_inv H. clear Hx x.
  rewrite pop_default_eq in H.
  bind_inv H. clear Hx. rename x into towers.
  bind_inv H. clear Hx x.
  inversion H; subst c; clear H.
  repeat rewrite lookup_delete_ne in * by discriminate.
  simpl. auto 10.
Qed.

(** X1: [dataset], [callbacks], [inputs] and [get_model_func] have no
    default: construction raises when one of them is not given, and
    with [KeyError('dataset')] when it is the dataset. *)
Theorem init_requires (kwargs : gmap string pyobj) :
  (forall k, k ∈ ["dataset"; "callbacks"; "inputs"; "get_model_func"] ->
             kwargs !! k = None -> raises (init kwargs)) /\
  (kwargs !! "dataset" = None -> init kwargs = Raise (KeyError "dataset")).
Proof.
  split.
  - intros k Hk Hnone. apply raises_not_Ok. intros c Hc.
    pose proof (init_Ok _ _ Hc) as Hcon.
    pose proof (init_Ok_fields _ _ Hc) as (Hcb & Hf & _).
    pose proof (c_dataset _ _ Hcon) as Hds.
    destruct (c_inputs _ _ Hcon) as (items & Hin & _).
    rewrite !elem_of_cons, elem_of_nil in Hk.
    destruct Hk as [->|[->|[->|[->|[]]]]]; congruence.
  - intros Hnone. unfold init, pop. rewrite Hnone. reflexivity.
Qed.

Lemma init_requires_witness :
  raises (init (delete "callbacks" (Examples.kwargs 2 1))) /\
  init (delete "dataset" (Examples.kwargs 2 1)) = Raise (KeyError "dataset").
Proof.
  split.
  - apply (proj1 (init_requires (delete "callbacks" (Examples.kwargs 2 1))) "callbacks").
    + rewrite !elem_of_cons. auto.
    + reflexivity.
  - apply (proj2 (init_requires (delete "dataset" (Examples.kwargs 2 1)))).
    reflexivity.
Defined.

(** X2: the defaults of the optional arguments: an Adam optimizer, the
    default session configuration, a new session, batched model input,
    the size of the dataset as [step_per_epoch], 100 epochs, one
    tower. *)
Theorem init_defaults (kwargs : gmap string pyobj) (c : TrainConfig) :
  init kwargs = Ok c ->
  (kwargs !! "optimizer" = None -> optimizer c = AdamOptimizer) /\
  (kwargs !! "session_config" = None -> session_config c = default_sess_config) /\
  (kwargs !! "session_init" = None -> session_init c = NewSession) /\
  (kwargs !! "batched_model_input" = None -> batched_model_input c = PyBool true) /\
  (kwargs !! "step_per_epoch" = None -> step_per_epoch c = df_size (dataset c)) /\
  (kwargs !! "max_epoch" = None -> max_epoch c = 100%Z) /\
  (kwargs !! "nr_tower" = None -> nr_tower c = 1%Z).
Proof.
  intros Hc. pose proof (init_Ok _ _ Hc) as Hcon.
  pose proof (init_Ok_fields _ _ Hc) as (_ & _ & Hopt & Hsc & Hsi & Hb).
  pose proof (c_step _ _ Hcon) as Hstep. pose proof (c_epoch _ _ Hcon) as Hep.
  pose proof (c_tower _ _ Hcon) as Htw.
  repeat split; intros Hnone; rewrite Hnone in *; simpl in *; congruence.
Qed.

Lemma init_defaults_witness :
  optimizer (Examples.config_of 2 1 (PyBool true)) = AdamOptimizer /\
  step_per_epoch (Examples.config_of 2 1 (PyBool true)) = 3%Z.
Proof.
  pose proof (init_defaults (Examples.kwargs 2 1)
                (Examples.config_of 2 1 (PyBool true))
                ltac:(vm_compute; reflexivity)) as (Hopt & _ & _ & _ & Hstep & _).
  split; [apply Hopt | apply Hstep]; reflexivity.
Defined.

(** X3: a dataset whose size is not positive cannot be trained on
    without an explicit [step_per_epoch]. *)
Theorem init_empty_dataset (kwargs : gmap string pyobj) (d : DataFlow) :
  kwargs !! "dataset" = Some (PyDataFlow d) ->
  kwargs !! "step_per_epoch" = None ->
  (df_size d <= 0)%Z ->
  raises (init kwargs).
Proof.
  intros Hds Hnone Hsize. apply raises_not_Ok. intros c Hc.
  pose proof (init_Ok _ _ Hc) as Hcon.
  pose proof (c_dataset _ _ Hcon) as Hds'. rewrite Hds in Hds'. inversion Hds'; subst d.
  pose proof (c_step _ _ Hcon) as Hstep. rewrite Hnone in Hstep. simpl in Hstep.
  inversion Hstep as [Heq]. destruct (c_positive _ _ Hcon) as [Hpos _]. lia.
Qed.

Lemma init_empty_dataset_witness :
  raises (init (<["dataset" := PyDataFlow {| df_name := "empty"; df_size := 0 |}]>
                  (Examples.kwargs 2 1))).
Proof.
  apply (init_empty_dataset _ {| df_name := "empty"; df_size := 0 |});
    [reflexivity | reflexivity | simpl; lia].
Defined.

End ConfigMore.

Module ConfigTypes.
Import Config ConfigFacts ConfigMore.

(** X4: every object argument is checked against its class, every
    element of [inputs] against [tf.Tensor], and the three numbers must
    convert with [int]; construction raises otherwise. *)
Theorem init_checks_types (kwargs : gmap string pyobj) :
  (forall v, kwargs !! "dataset" = Some v -> (forall d, v <> PyDataFlow d) ->
             init kwargs = Raise AssertionError) /\
  (forall v, kwargs !! "optimizer" = Some v -> (forall o, v <> PyOptimizer o) ->
             raises (init kwargs)) /\
  (forall v, kwargs !! "callbacks" = Some v -> (forall cb, v <> PyCallbacks cb) ->
             raises (init kwargs)) /\
  (forall v, kwargs !! "session_config" = Some v -> (forall sc, v <> PyConfigProto sc) ->
             raises (init kwargs)) /\
  (forall v, kwargs !! "session_init" = Some v -> (forall si, v <> PySessionInit si) ->
             raises (init kwargs)) /\
  (forall v, kwargs !! "input_queue" = Some v -> (forall q, v <> PyQueue q) ->
             raises (init kwargs)) /\
  (forall items x, kwargs !! "inputs" = Some (PyList items) -> x ∈ items ->
                   (forall t, x <> PyTensor t) -> raises (init kwargs)) /\
  (forall k v, k ∈ ["step_per_epoch"; "max_epoch"; "nr_tower"] ->
               kwargs !! k = Some v -> raises (py_int v) -> raises (init kwargs)).
Proof.
  repeat split.
  - intros v Hv Hno. unfold init, pop. rewrite Hv. simpl.
    destruct v; try reflexivity. exfalso. eapply Hno. reflexivity.
  - intros v Hv Hno. apply raises_not_Ok. intros c Hc.
    pose proof (init_Ok_fields _ _ Hc) as (_ & _ & H & _).
    rewrite Hv in H. simpl in H. exact (Hno _ H).
  - intros v Hv Hno. apply raises_not_Ok. intros c Hc.
    pose proof (init_Ok_fields _ _ Hc) as (H & _).
    rewrite Hv in H. inversion H as [Heq]. exact (Hno _ Heq).
  - intros v Hv Hno. apply raises_not_Ok. intros c Hc.
    pose proof (init_Ok_fields _ _ Hc) as (_ & _ & _ & H & _).
    rewrite Hv in H. simpl in H. exact (Hno _ H).
  - intros v Hv Hno. apply raises_not_Ok. intros c Hc.
    pose proof (init_Ok_fields _ _ Hc) as (_ & _ & _ & _ & H & _).
    rewrite Hv in H. simpl in H. exact (Hno _ H).
  - intros v Hv Hno. apply raises_not_Ok. intros c Hc.
    pose proof (c_queue _ _ (init_Ok _ _ Hc)) as H.
    rewrite Hv in H. simpl in H. exact (Hno _ H).
  - intros items x Hitems Hx Hno. apply raises_not_Ok. intros c Hc.
    destruct (c_inputs _ _ (init_Ok _ _ Hc)) as (items' & Hitems' & Htr).
    rewrite Hitems in Hitems'. inversion Hitems'; subst items'.
    apply traverse_Ok in Htr.
    apply list_elem_of_lookup in Hx as [i Hi].
    destruct (Forall2_lookup_l _ _ _ _ _ Htr Hi) as (t & _ & Ht).
    destruct x; try discriminate. eapply Hno. reflexivity.
  - intros k v Hk Hv [e He]. apply raises_not_Ok. intros c Hc.
    pose proof (init_Ok _ _ Hc) as Hcon.
    pose proof (c_step _ _ Hcon) as Hs. pose proof (c_epoch _ _ Hcon) as Hep.
    pose proof (c_tower _ _ Hcon) as Ht.
    rewrite !elem_of_cons, elem_of_nil in Hk.
    destruct Hk as [->|[->|[->|[]]]]; rewrite Hv in *; simpl in *; congruence.
Qed.

Lemma init_checks_types_witness :
  init (<["dataset" := PyInt 3]> (Examples.kwargs 2 1)) = Raise AssertionError /\
  raises (init (<["inputs" := PyList [PyTensor Examples.image; PyInt 0]]>
                  (Examples.kwargs 2 1))) /\
  raises (init (<["nr_tower" := PyNone]> (Examples.kwargs 2 1))).
Proof.
  split; [|split].
  - apply (proj1 (init_checks_types _) (PyInt 3)); [reflexivity | discriminate].
  - apply (proj1 (proj2 (proj2 (proj2 (proj2 (proj2 (proj2 (init_checks_types _)))))))
             [PyTensor Examples.image; PyInt 0] (PyInt 0));
      [reflexivity | rewrite !elem_of_cons; auto | discriminate].
  - apply (proj2 (proj2 (proj2 (proj2 (proj2 (proj2 (proj2 (init_checks_types _)))))))
             "nr_tower" PyNone);
      [rewrite !elem_of_cons; auto | reflexivity | eexists; reflexivity].
Defined.

Lemma nothing_left (kwargs : gmap string pyobj) :
  (forall k, is_Some (kwargs !! k) -> k ∈ known_keys) ->
  size (delete "nr_tower" (delete "max_epoch" (delete "step_per_epoch"
       (delete "batched_model_input" (delete "get_model_func"
       (delete "input_queue" (delete "inputs" (delete "session_init"
       (delete "session_config" (delete "callbacks" (delete "optimizer"
       (delete "dataset" kwargs)))))))))))) = 0%nat.
Proof.
  intros Hknown. apply map_size_empty_iff, map_eq. intros k.
  rewrite lookup_empty.
  repeat (rewrite lookup_delete; destruct (decide (_ = k)) as [<-|?]; [reflexivity|]).
  destruct (kwargs !! k) eqn:Hk; [|reflexivity].
  specialize (Hknown k ltac:(rewrite Hk; eauto)).
  unfold known_keys in Hknown. rewrite !elem_of_cons, elem_of_nil in Hknown.
  intuition congruence.
Qed.

(** X5: the arguments that construct a configuration, and the
    configuration they construct: the four required ones of their
    classes, at least one input, the optional ones of their classes
    where given, a queue with the dtypes of the inputs, positive steps
    and epochs, and no other key. *)
Theorem init_succeeds (kwargs : gmap string pyobj)
    ds cb items ins f opt sc si q steps epochs towers :
  kwargs !! "dataset" = Some (PyDataFlow ds) ->
  kwargs !! "callbacks" = Some (PyCallbacks cb) ->
  kwargs !! "inputs" = Some (PyList items) ->
  traverse as_Tensor items = Ok ins ->
  ins <> [] ->
  kwargs !! "get_model_func" = Some f ->
  default (PyOptimizer AdamOptimizer) (kwargs !! "optimizer") = PyOptimizer opt ->
  default (PyConfigProto default_sess_config) (kwargs !! "session_config")
  = PyConfigProto sc ->
  default (PySessionInit NewSession) (kwargs !! "session_init") = PySessionInit si ->
  default (PyQueue (FIFOQueue 5 (map dtype_of ins) "input_queue"))
          (kwargs !! "input_queue") = PyQueue q ->
  q_dtypes q = map dtype_of ins ->
  py_int (default (PyInt (df_size ds)) (kwargs !! "step_per_epoch")) = Ok steps ->
  py_int (default (PyInt 100) (kwargs !! "max_epoch")) = Ok epochs ->
  py_int (default (PyInt 1) (kwargs !! "nr_tower")) = Ok towers ->
  (0 < steps)%Z -> (0 < epochs)%Z ->
  (forall k, is_Some (kwargs !! k) -> k ∈ known_keys) ->
  init kwargs
  = Ok {| dataset := ds; optimizer := opt; callbacks := cb;
          session_config := sc; session_init := si; inputs := ins;
          input_queue := q; get_model_func := f;
          batched_model_input := default (PyBool true) (kwargs !! "batched_model_input");
          step_per_epoch := steps; max_epoch := epochs; nr_tower := towers |}.
Proof.
  intros Hds Hcb Hin Hins Hne Hf Hopt Hsc Hsi Hq Hdt Hsteps Hep Htw Hs He Hknown.
  assert (Hdefault : new_FIFOQueue 5 (map dtype_of ins) "input_queue"
                     = Ok (FIFOQueue 5 (map dtype_of ins) "input_queue")).
  { destruct ins; [congruence | reflexivity]. }
  unfold init.
  unfold pop at 1. rewrite Hds. cbn [rbind as_DataFlow].
  rewrite pop_default_eq. rewrite lookup_delete_ne by discriminate.
  rewrite Hopt. cbn [rbind as_Optimizer].
  unfold pop at 1. repeat rewrite lookup_delete_ne by discriminate.
  rewrite Hcb. cbn [rbind as_Callbacks].
  rewrite pop_default_eq. repeat rewrite lookup_delete_ne by discriminate.
  rewrite Hsc. cbn [rbind as_ConfigProto].
  rewrite pop_default_eq. repeat rewrite lookup_delete_ne by discriminate.
  rewrite Hsi. cbn [rbind as_SessionInit].
  unfold pop at 1. repeat rewrite lookup_delete_ne by discriminate.
  rewrite Hin. cbn [rbind iterate]. rewrite Hins. cbn [rbind].
  rewrite Hdefault. cbn [rbind].
  rewrite pop_default_eq. repeat rewrite lookup_delete_ne by discriminate.
  rewrite Hq. cbn [rbind as_QueueBase].
  rewrite bool_decide_eq_true_2 by exact Hdt. cbn [rbind assert].
  unfold pop at 1. repeat rewrite lookup_delete_ne by discriminate.
  rewrite Hf. cbn [rbind].
  rewrite pop_default_eq.
  rewrite pop_default_eq. repeat rewrite lookup_delete_ne by discriminate.
  rewrite Hsteps. cbn [rbind].
  rewrite pop_default_eq. repeat rewrite lookup_delete_ne by discriminate.
  rewrite Hep. cbn [rbind].
  rewrite (proj2 (Z.ltb_lt 0 steps) Hs), (proj2 (Z.ltb_lt 0 epochs) He).
  cbn [andb rbind assert].
  rewrite pop_default_eq. repeat rewrite lookup_delete_ne by discriminate.
  rewrite Htw. cbn [rbind].
  rewrite bool_decide_eq_true_2 by (apply nothing_left; exact Hknown).
  cbn [rbind assert].
  repeat rewrite lookup_delete_ne by discriminate. reflexivity.
Qed.

Lemma init_succeeds_witness :
  init (Examples.kwargs 2 1) = Ok (Examples.config_of 2 1 (PyBool true)).
Proof.
  apply (init_succeeds (Examples.kwargs 2 1) Examples.mnist
           (MkCallbacks ["SummaryWriter"; "PeriodicSaver"])
           [PyTensor Examples.image; PyTensor Examples.label]
           [Examples.image; Examples.label] (PyFunc "get_model")
           AdamOptimizer default_sess_config NewSession
           (FIFOQueue 5 [float32; int32] "input_queue") 3%Z 2%Z 1%Z);
    try reflexivity; [discriminate|].
  intros k [v Hk]. unfold known_keys. rewrite !elem_of_cons.
  unfold Examples.kwargs, Examples.base_kwargs in Hk.
  repeat (rewrite lookup_insert in Hk; destruct (decide (_ = k)) as [<-|?] in Hk;
          [tauto|]).
  rewrite lookup_empty in Hk. discriminate.
Defined.

End ConfigTypes.

(** ** average_gradients and summary_grads: lengths, failures, frames *)

Section GradientsMore.

(** A row of the transposition has one element per list. *)
Lemma zip_star_row {A} (lists : list (list A)) (i : nat) (row : list A) :
  zip_star lists !! i = Some row ->
  lists <> [] /\ Forall2 (fun (l : list A) x => l !! i = Some x) lists row.
Proof.
  intros H. assert (Hne : lists <> []).
  { intros ->. simpl in H. discriminate. }
  split; [exact Hne|]. rewrite zip_star_lookup in H by exact Hne.
  apply mapM_Some in H. exact H.
Qed.

Lemma zip_star_shortest {A} (lists : list (list A)) :
  lists <> [] ->
  (forall l, l ∈ lists -> (length (zip_star lists) <= length l)%nat) /\
  (exists l, l ∈ lists /\ length (zip_star lists) = length l).
Proof.
  induction lists as [|l rest IH]; [congruence|]. intros _.
  destruct rest as [|l' rest].
  - simpl. rewrite length_map. split.
    + intros l0 Hl0. apply list_elem_of_singleton in Hl0 as ->. lia.
    + exists l. split; [apply list_elem_of_singleton; reflexivity | reflexivity].
  - change (zip_star (l :: l' :: rest))
      with (zip_with cons l (zip_star (l' :: rest))).
    rewrite length_zip_with.
    destruct (IH ltac:(discriminate)) as [Hle (l0 & Hl0 & Heq)]. split.
    + intros l1 Hl1. apply elem_of_cons in Hl1 as [->|Hl1]; [lia|].
      specialize (Hle l1 Hl1). lia.
    + destruct (Nat.le_gt_cases (length l) (length (zip_star (l' :: rest)))).
      * exists l. split; [apply elem_of_cons; auto | lia].
      * exists l0. split; [apply elem_of_cons; auto | lia].
Qed.

(** X6: towers of different lengths are not refused: the result is as
    long as the shortest gradient set, and what the longer ones have
    beyond that is dropped. *)
Theorem average_gradients_truncates (tower_grads : list GradientSet) (out : GradientSet) :
  average_gradients tower_grads = Ok out ->
  (tower_grads = [] -> out = []) /\
  (tower_grads <> [] ->
   (forall gs, gs ∈ tower_grads -> (length out <= length gs)%nat) /\
   (exists gs, gs ∈ tower_grads /\ length out = length gs)).
Proof.
  intros H. split.
  - intros ->. inversion H. reflexivity.
  - intros Hne. unfold average_gradients in H. apply traverse_Ok in H.
    rewrite <- (Forall2_length _ _ _ H). apply zip_star_shortest. exact Hne.
Qed.

Lemma average_gradients_truncates_witness :
  exists out,
    average_gradients
      [[(Some (Output "g0" float32 None), Examples.W); (None, Examples.b)];
       [(Some (Output "g1" float32 None), Examples.W)]] = Ok out /\
    length out = 1%nat.
Proof.
  destruct (average_gradients
              [[(Some (Output "g0" float32 None), Examples.W); (None, Examples.b)];
               [(Some (Output "g1" float32 None), Examples.W)]])
    as [out|e] eqn:H; [|vm_compute in H; discriminate].
  exists out. split; [reflexivity|].
  destruct (proj2 (average_gradients_truncates _ out H) ltac:(discriminate))
    as [Hle (gs & Hgs & Hlen)].
  specialize (Hle [(Some (Output "g1" float32 None), Examples.W)]
                  ltac:(rewrite !elem_of_cons; auto)).
  rewrite !elem_of_cons, elem_of_nil in Hgs.
  destruct Hgs as [->|[->|[]]]; simpl in *; lia.
Defined.

(** X7: [average_gradients] raises whenever some tower has an absent
    gradient at a position that every tower has, whatever the other
    gradients are. *)
Theorem absent_gradient_raises (tower_grads : list GradientSet)
    (i : nat) (gs : GradientSet) (v : Variable_) :
  gs ∈ tower_grads ->
  gs !! i = Some (None, v) ->
  (forall gs', gs' ∈ tower_grads -> (i < length gs')%nat) ->
  raises (average_gradients tower_grads).
Proof.
  intros Hgs Hi Hall.
  assert (Hne : tower_grads <> []).
  { intros ->. apply elem_of_nil in Hgs. exact Hgs. }
  assert (Hrow : exists row, zip_star tower_grads !! i = Some row).
  { rewrite zip_star_lookup by exact Hne. apply mapM_is_Some.
    apply List.Forall_forall. intros gs' Hgs'. apply lookup_lt_is_Some.
    apply Hall. apply list_elem_of_In. exact Hgs'. }
  destruct Hrow as [row Hrow]. pose proof Hrow as Hrow'.
  apply zip_star_row in Hrow' as [_ Hcol].
  apply list_elem_of_lookup in Hgs as [j Hj].
  destruct (Forall2_lookup_l _ _ _ _ _ Hcol Hj) as (x & Hx & Hxi).
  pose proof (eq_trans (eq_sym Hxi) Hi) as Heq. inversion Heq; subst x.
  assert (Hin : (None, v) ∈ row) by (apply list_elem_of_lookup; eauto).
  apply list_elem_of_split in Hin as (r1 & r2 & Hsplit).
  eapply average_gradients_absent_raises; [|exact Hsplit].
  apply list_elem_of_lookup. eauto.
Qed.

Lemma absent_gradient_raises_witness :
  raises (average_gradients
            [[(Some (Output "g0" float32 None), Examples.W); (None, Examples.b)];
             [(Some (Output "g1" float32 None), Examples.W); (None, Examples.b)]]).
Proof.
  apply (absent_gradient_raises _ 1%nat
           [(Some (Output "g0" float32 None), Examples.W); (None, Examples.b)]
           Examples.b).
  - rewrite !elem_of_cons. auto.
  - reflexivity.
  - intros gs' Hgs'. rewrite !elem_of_cons, elem_of_nil in Hgs'.
    destruct Hgs' as [->|[->|[]]]; simpl; lia.
Defined.

(** X9: [summary_grads] appends to the [SUMMARIES] collection one
    histogram per gradient that is there, in order, tagged with the
    name of the variable and [/gradients]; it changes no other
    collection and nothing else of the graph. *)
Theorem summary_grads_effect (gs : GradientSet) (g : Graph) :
  get_collection SUMMARIES (summary_grads gs g)
  = get_collection SUMMARIES g
    ++ omap (fun gv : option Tensor * Variable_ =>
               grad ← fst gv;
               Some (PyTensor (HistogramSummary (var_op_name (snd gv) +:+ "/gradients")
                                                grad)))
            gs /\
  (forall k, k <> SUMMARIES ->
             get_collection k (summary_grads gs g) = get_collection k g) /\
  reuse (summary_grads gs g) = reuse g /\
  device (summary_grads gs g) = device g /\
  name_scope (summary_grads gs g) = name_scope g.
Proof.
  split; [apply summary_grads_collection|].
  revert g. induction gs as [|[[grad|] v] gs IH]; intros g.
  - simpl. auto.
  - change (summary_grads ((Some grad, v) :: gs) g)
      with (summary_grads gs (histogram_summary (var_op_name v +:+ "/gradients") grad g)).
    destruct (IH (histogram_summary (var_op_name v +:+ "/gradients") grad g))
      as (Hk & Hr & Hd & Hn).
    rewrite Hr, Hd, Hn. repeat split; try reflexivity.
    intros k Hne. rewrite (Hk k Hne).
    unfold histogram_summary, add_to_collection, get_collection, set_collection. simpl.
    rewrite lookup_insert_ne by congruence. reflexivity.
  - change (summary_grads ((None, v) :: gs) g) with (summary_grads gs g). apply IH.
Qed.

End GradientsMore.

(** ** Building the graph: inputs, towers, collections *)

Section BuildMore.
Context `{Ext : Externals}.
Variable config : TrainConfig.

Lemma set_shape_dtype (t y : Tensor) (s : TensorShape) :
  set_shape t s = Ok y -> Config.dtype_of y = Config.dtype_of t.
Proof.
  destruct t; simpl; intros H; bind_inv H; inversion H; reflexivity.
Qed.

Lemma dequeue_length (q : QueueBase) (scope : string) :
  length (dequeue q scope) = length (q_dtypes q).
Proof. unfold dequeue. apply length_imap. Qed.

Lemma dequeue_dtypes (q : QueueBase) (scope : string) :
  map Config.dtype_of (dequeue q scope) = q_dtypes q.
Proof.
  apply list_eq. intros i. rewrite list_lookup_fmap. unfold dequeue.
  rewrite list_lookup_imap. destruct (q_dtypes q !! i); reflexivity.
Qed.

Lemma shaped_dtypes (deq ins shaped : list Tensor) :
  length deq = length ins ->
  Forall2 (fun (qv_v : Tensor * Tensor) y =>
             exists s, model_input_shape config (snd qv_v) = Ok s
                       /\ set_shape (fst qv_v) s = Ok y)
          (zip deq ins) shaped ->
  map Config.dtype_of shaped = map Config.dtype_of deq.
Proof.
  revert ins shaped. induction deq as [|qv deq IH]; intros [|v ins] shaped Hlen H;
    simpl in *; try discriminate.
  - inversion H. reflexivity.
  - inversion H as [|? y ? shaped' (s & _ & Hset) H']; subst. simpl in *.
    rewrite (set_shape_dtype _ _ _ Hset). f_equal. apply (IH ins); [lia | exact H'].
Qed.

(** X10: for a configuration whose queue has the dtypes of its inputs,
    as [TrainConfig] requires, the model inputs are as many as the
    input variables and have their dtypes, in order. *)
Theorem model_inputs_match_inputs (g : Graph) (mi : list Tensor) :
  q_dtypes (input_queue config) = map Config.dtype_of (inputs config) ->
  get_model_inputs config g = Ok mi ->
  length mi = length (inputs config) /\
  map Config.dtype_of mi = map Config.dtype_of (inputs config).
Proof.
  intros Hdt Hmi. apply get_model_inputs_Ok in Hmi as (shaped & Hshaped & ->).
  assert (Hlen : length (dequeue (input_queue config) (name_scope g))
                 = length (inputs config)).
  { rewrite dequeue_length, Hdt, length_map. reflexivity. }
  rewrite drop_ge by lia. rewrite app_nil_r.
  pose proof (Forall2_length _ _ _ Hshaped) as Hl. rewrite length_zip_with in Hl.
  split; [lia|].
  rewrite (shaped_dtypes _ _ _ Hlen Hshaped), dequeue_dtypes. exact Hdt.
Qed.

(** X11: without batched model input every input variable that gets a
    queue element must have a known rank: [as_list] on a shape of
    unknown rank raises, and so does [get_model_inputs]. *)
Theorem unbatched_needs_known_rank (g : Graph) (i : nat) (v : Tensor) :
  truthy (batched_model_input config) = false ->
  inputs config !! i = Some v ->
  get_shape v = unknown_shape ->
  (i < length (q_dtypes (input_queue config)))%nat ->
  raises (get_model_inputs config g).
Proof.
  intros Hflag Hv Hshape Hi. apply raises_not_Ok. intros mi Hmi.
  apply get_model_inputs_Ok in Hmi as (shaped & Hshaped & _).
  rewrite <- (dequeue_length _ (name_scope g)) in Hi.
  apply lookup_lt_is_Some in Hi as [dq Hdq].
  assert (Hzip : zip (dequeue (input_queue config) (name_scope g)) (inputs config) !! i
                 = Some (dq, v)).
  { apply lookup_zip_with_Some. eauto. }
  destruct (Forall2_lookup_l _ _ _ _ _ Hshaped Hzip) as (y & _ & s & Hs & _).
  unfold model_input_shape in Hs. rewrite Hflag in Hs. simpl in Hs.
  rewrite Hshape in Hs. discriminate.
Qed.

(** X12: a number of towers below one is taken for one: the graph built
    is the graph of a single tower. *)
Theorem few_towers_build_one (n : Z) (g : Graph) :
  (n <= 1)%Z ->
  build_graph (with_nr_tower n config) g = build_graph (with_nr_tower 1 config) g.
Proof.
  intros Hn. unfold build_graph, build_towers. simpl.
  replace (1 <? n)%Z with false by (symmetry; apply Z.ltb_ge; exact Hn).
  reflexivity.
Qed.

End BuildMore.

Lemma model_inputs_match_inputs_witness :
  exists mi,
    get_model_inputs (Examples.config_of 2 1 (PyBool true)) Examples.empty_graph = Ok mi /\
    length mi = 2%nat /\ map Config.dtype_of mi = [float32; int32].
Proof.
  destruct (get_model_inputs (Examples.config_of 2 1 (PyBool true)) Examples.empty_graph)
    as [mi|e] eqn:H; [|vm_compute in H; discriminate].
  exists mi. split; [reflexivity|].
  exact (model_inputs_match_inputs (Examples.config_of 2 1 (PyBool true))
           Examples.empty_graph mi eq_refl H).
Defined.

Lemma unbatched_needs_known_rank_witness :
  raises (get_model_inputs
            {| dataset := Examples.mnist; optimizer := AdamOptimizer;
               callbacks := MkCallbacks [];
               session_config := default_sess_config; session_init := NewSession;
               inputs := [Examples.image; Output "label" int32 unknown_shape];
               input_queue := FIFOQueue 5 [float32; int32] "input_queue";
               get_model_func := PyFunc "get_model";
               batched_model_input := PyBool false;
               step_per_epoch := 3; max_epoch := 2; nr_tower := 1 |}
            Examples.empty_graph).
Proof.
  apply (unbatched_needs_known_rank _ Examples.empty_graph 1%nat
           (Output "label" int32 unknown_shape));
    [reflexivity | reflexivity | reflexivity | simpl; lia].
Defined.

Lemma few_towers_build_one_witness :
  build_graph (Ext := Examples.toy_model false)
              (with_nr_tower (-3) (Examples.config_of 2 1 (PyBool true)))
              Examples.empty_graph
  = build_graph (Ext := Examples.toy_model false)
                (with_nr_tower 1 (Examples.config_of 2 1 (PyBool true)))
                Examples.empty_graph.
Proof.
  apply (few_towers_build_one (Ext := Examples.toy_model false)
           (Examples.config_of 2 1 (PyBool true)) (-3) Examples.empty_graph).
  lia.
Defined.

(** [bind_inv] with the names given. *)
Ltac bind_as H x Hx := apply rbind_Ok in H; destruct H as (x & Hx & H).

Section TowersMore.
Context `{Ext : Externals}.
Variable config : TrainConfig.

Lemma for_each_snoc {S X} (body : S -> X -> result S) (l : list X) (x : X) (s : S) :
  for_each body (l ++ [x]) s = rbind (for_each body l s) (fun s' => body s' x).
Proof.
  revert s. induction l as [|y l IH]; intros s; simpl.
  - destruct (body s x); reflexivity.
  - destruct (body s y); simpl; [apply IH | reflexivity].
Qed.

(** What one pass of the tower loop binds the names to. *)
Lemma tower_locals loc outer i loc' g' :
  tower config (loc, outer) i = Ok (loc', g') ->
  exists cost gs g2,
    replica config (enter_scope ("/gpu:" +:+ pretty i) ("tower" +:+ pretty i) outer)
    = Ok (model_inputs loc', output_vars loc', cost, gs, g2) /\
    cost_var loc' = Some cost /\
    grads loc' = grads loc ++ [gs] /\
    device g' = device outer /\ name_scope g' = name_scope outer.
Proof.
  unfold tower. intros H. bind_inv H.
  destruct x as [[[[mi outs] cost] gs] g2].
  exists cost, gs, g2. destruct (i =? 0)%nat; inversion H; subst; simpl; auto.
Qed.

(** X13: with several towers, the model inputs, outputs and cost that
    the step loop fetches are those of the last tower built, the one
    with index [nr_tower - 1]. *)
Theorem last_tower_is_fetched (g : Graph) (b : Built) :
  (1 < nr_tower config)%Z ->
  build_graph config g = Ok b ->
  let last := (Z.to_nat (nr_tower config) - 1)%nat in
  exists loc g_prev gs g2,
    for_each (tower config) (seq 0 last) (no_locals, register_model config g)
    = Ok (loc, g_prev) /\
    replica config (enter_scope ("/gpu:" +:+ pretty last) ("tower" +:+ pretty last) g_prev)
    = Ok (b_model_inputs b, b_output_vars b, b_cost_var b, gs, g2).
Proof.
  intros Hmany H last. unfold build_graph in H. cbv zeta in H.
  bind_inv H. destruct x as [[[[gs mi] outs] cost] g2]. rename Hx into Htowers.
  bind_inv H. destruct x as [avg g3].
  bind_inv H. destruct x as [step g4].
  bind_inv H. inversion H; subst b; clear H. simpl.
  unfold build_towers in Htowers.
  replace (1 <? nr_tower config)%Z with true in Htowers
    by (symmetry; apply Z.ltb_lt; exact Hmany).
  bind_as Htowers st Hloop. destruct st as [loc g_all].
  bind_as Htowers g_r Hrestore. bind_as Htowers gs_avg Havg.
  destruct (cost_var loc) as [cost'|] eqn:Hcost; [|discriminate].
  inversion Htowers; subst; clear Htowers.
  unfold range in Hloop.
  replace (Z.to_nat (nr_tower config)) with (S last) in Hloop by (unfold last; lia).
  rewrite seq_S, for_each_snoc in Hloop. simpl in Hloop.
  bind_as Hloop st Hprev. destruct st as [loc_prev g_prev].
  apply tower_locals in Hloop as (cost'' & gs' & g2' & Hrep & Hc & _).
  rewrite Hcost in Hc. inversion Hc; subst cost''.
  exists loc_prev, g_prev, gs', g2'. split; [exact Hprev | exact Hrep].
Qed.

(** X14: the tower loop leaves the device and the name scope as it
    found them, and adds one gradient set per tower, so that
    [average_gradients] gets as many sets as there are towers. *)
Theorem towers_keep_scope (l : list nat) loc g loc' g' :
  for_each (tower config) l (loc, g) = Ok (loc', g') ->
  device g' = device g /\ name_scope g' = name_scope g /\
  length (grads loc') = (length (grads loc) + length l)%nat.
Proof.
  revert loc g. induction l as [|i l IH]; intros loc g H.
  - inversion H; subst. repeat split. simpl. lia.
  - simpl in H. bind_inv H. destruct x as [loc1 g1].
    destruct (IH _ _ H) as (Hd & Hn & Hlen).
    apply tower_locals in Hx as (cost & gs & g2 & _ & _ & Hg & Hd1 & Hn1).
    rewrite Hd, Hn, Hlen, Hd1, Hn1, Hg, length_app. simpl. repeat split; lia.
Qed.

Lemma register_inputs (key : string) (ins : list Tensor) (g : Graph) :
  let g' := fold_left (fun g v => add_to_collection key (PyTensor v) g) ins g in
  get_collection key g' = get_collection key g ++ map PyTensor ins /\
  (forall k, k <> key -> get_collection k g' = get_collection k g) /\
  reuse g' = reuse g /\ device g' = device g /\ name_scope g' = name_scope g.
Proof.
  revert g. induction ins as [|v ins IH]; intros g; simpl.
  - rewrite app_nil_r. auto.
  - destruct (IH (add_to_collection key (PyTensor v) g)) as (Hk & Ho & Hr & Hd & Hn).
    rewrite Hk, Hr, Hd, Hn. repeat split; try reflexivity.
    + unfold add_to_collection, get_collection at 1, set_collection. simpl.
      rewrite lookup_insert_eq. simpl. rewrite <- app_assoc. reflexivity.
    + intros k Hne. rewrite (Ho k Hne).
      unfold add_to_collection, get_collection, set_collection. simpl.
      rewrite lookup_insert_ne by congruence. reflexivity.
Qed.

(** X15: [start_train] appends the model function to the collection
    [FORWARD_FUNC_KEY] and the input variables, in order, to the
    collection [INPUT_VARS_KEY]; what these collections held stays, and
    nothing else of the graph changes. *)
Theorem register_model_collections (g : Graph) :
  FORWARD_FUNC_KEY <> INPUT_VARS_KEY ->
  get_collection FORWARD_FUNC_KEY (register_model config g)
  = get_collection FORWARD_FUNC_KEY g ++ [get_model_func config] /\
  get_collection INPUT_VARS_KEY (register_model config g)
  = get_collection INPUT_VARS_KEY g ++ map PyTensor (inputs config) /\
  (forall k, k <> FORWARD_FUNC_KEY -> k <> INPUT_VARS_KEY ->
             get_collection k (register_model config g) = get_collection k g) /\
  reuse (register_model config g) = reuse g /\
  device (register_model config g) = device g /\
  name_scope (register_model config g) = name_scope g.
Proof.
  intros Hne. unfold register_model.
  destruct (register_inputs INPUT_VARS_KEY (inputs config)
              (add_to_collection FORWARD_FUNC_KEY (get_model_func config) g))
    as (Hk & Ho & Hr & Hd & Hn).
  cbv zeta in *. rewrite Hk, Hr, Hd, Hn. repeat split; try reflexivity.
  - rewrite (Ho _ Hne). unfold add_to_collection, get_collection at 1, set_collection.
    simpl. rewrite lookup_insert_eq. reflexivity.
  - f_equal. unfold add_to_collection, get_collection, set_collection. simpl.
    rewrite lookup_insert_ne by exact Hne. reflexivity.
  - intros k Hk1 Hk2. rewrite (Ho k Hk2).
    unfold add_to_collection, get_collection, set_collection. simpl.
    rewrite lookup_insert_ne by congruence. reflexivity.
Qed.

End TowersMore.

Lemma last_tower_is_fetched_witness :
  exists b,
    build_graph (Ext := Examples.toy_model false)
                (Examples.config_of 2 2 (PyBool true)) Examples.empty_graph = Ok b /\
    b_cost_var b = Output "tower1/cost" float32 (Some []).
Proof.
  destruct (build_graph (Ext := Examples.toy_model false)
              (Examples.config_of 2 2 (PyBool true)) Examples.empty_graph)
    as [b|e] eqn:H; [|vm_compute in H; discriminate].
  exists b. split; [reflexivity|].
  destruct (last_tower_is_fetched (Ext := Examples.toy_model false)
              (Examples.config_of 2 2 (PyBool true)) Examples.empty_graph b
              ltac:(simpl; lia) H)
    as (loc & g_prev & gs & g2 & Hloop & Hrep).
  vm_compute in Hloop. inversion Hloop; subst loc g_prev.
  vm_compute in Hrep. inversion Hrep as [[Hmi Hout Hcost Hgs Hg]].
  symmetry. exact Hcost.
Defined.

Lemma towers_keep_scope_witness :
  exists loc g,
    for_each (tower (Ext := Examples.toy_model false)
                    (Examples.config_of 2 3 (PyBool true)))
             (range 3) (no_locals, Examples.empty_graph) = Ok (loc, g) /\
    name_scope g = "" /\ length (grads loc) = 3%nat.
Proof.
  destruct (for_each (tower (Ext := Examples.toy_model false)
                            (Examples.config_of 2 3 (PyBool true)))
                     (range 3) (no_locals, Examples.empty_graph))
    as [[loc g]|e] eqn:H; [|vm_compute in H; discriminate].
  exists loc, g. split; [reflexivity|].
  destruct (towers_keep_scope (Ext := Examples.toy_model false)
              (Examples.config_of 2 3 (PyBool true)) _ _ _ _ _ H) as (_ & Hn & Hl).
  split; [exact Hn | exact Hl].
Defined.

Lemma register_model_collections_witness :
  get_collection "INPUT_VARIABLES"
    (register_model (Ext := Examples.toy_model false)
                    (Examples.config_of 2 1 (PyBool true)) Examples.empty_graph)
  = [PyTensor Examples.image; PyTensor Examples.label].
Proof.
  apply (proj1 (proj2 (register_model_collections (Ext := Examples.toy_model false)
                         (Examples.config_of 2 1 (PyBool true)) Examples.empty_graph
                         ltac:(discriminate)))).
Defined.

(** ** The step loop: runs, sessions, stops *)

Section LoopMore.
Context `{RT : Runtime}.
Variable config : TrainConfig.
Variable built : Built.

(** One [Session.run] of the fetches, seen on the session alone. *)
Abbreviation advance := (fun s : session => snd (execute s (fetches built))).

Lemma step_loop_sessions steps w :
  let '(tr, out, w') := step_loop built steps w in
  (forall e, out <> Raised e) /\
  count is_trigger_step tr = count is_run tr /\
  w_session w' = Nat.iter (count is_run tr) advance (w_session w).
Proof.
  revert w. induction steps as [|i steps IH]; intros w.
  - simpl. repeat split. discriminate.
  - destruct (should_stop (w_polls w)) eqn:Hpoll.
    + rewrite step_loop_stop by exact Hpoll. repeat split. discriminate.
    + rewrite step_loop_go by exact Hpoll. cbv zeta.
      specialize (IH {| w_session := snd (execute (w_session w) (fetches built));
                        w_polls := S (w_polls w) |}).
      destruct (step_loop built steps _) as [[evs out] w'].
      destruct IH as (Hout & Hcount & Hsess). split; [exact Hout|].
      unfold count in *. simpl in *. split; [lia|].
      rewrite Hsess.
      exact (eq_sym (Nat.iter_succ_r _ advance (w_session w))).
Qed.

(** X16: the training loop never raises by itself; every session run
    is reported by one [trigger_step]; the session at the end is the
    one that as many runs as were reported, and nothing else, lead
    to. *)
Theorem loop_runs_once_per_step (w : world) :
  let '(tr, out, w') := train_loop config built w in
  (forall e, out <> Raised e) /\
  count is_trigger_step tr = count is_run tr /\
  w_session w' = Nat.iter (count is_run tr) advance (w_session w).
Proof.
  unfold train_loop.
  assert (Hep : forall epochs w0,
            let '(tr, out, w') := epoch_loop config built epochs w0 in
            (forall e, out <> Raised e) /\
            count is_trigger_step tr = count is_run tr /\
            w_session w' = Nat.iter (count is_run tr) advance (w_session w0)).
  { induction epochs as [|e epochs IH]; intros w0.
    - simpl. repeat split. discriminate.
    - simpl. pose proof (step_loop_sessions (range (step_per_epoch config)) w0) as H1.
      destruct (step_loop built _ w0) as [[evs out] w1].
      destruct out; [|exact H1..].
      specialize (IH w1). destruct (epoch_loop config built epochs w1) as [[evs' out'] w2].
      destruct H1 as (_ & Hc1 & Hs1). destruct IH as (Hout & Hc2 & Hs2).
      split; [exact Hout|].
      change (evs ++ TriggerEpoch :: evs') with (evs ++ [TriggerEpoch] ++ evs').
      rewrite !count_app. unfold count at 2 5. simpl. split; [lia|].
      rewrite Hs2, Hs1, Nat.add_comm. symmetry. apply Nat.iter_add. }
  specialize (Hep (xrange 1 (max_epoch config)) w).
  destruct (epoch_loop config built _ w) as [[evs out] w']. exact Hep.
Qed.

(** X17: a configuration with [max_epoch = 1], which [TrainConfig]
    accepts, trains nothing: after [before_train] the loop is over, no
    poll, no run, no [trigger_epoch]. *)
Theorem one_epoch_trains_nothing (w : world) :
  (max_epoch config <= 1)%Z ->
  train_loop config built w = ([BeforeTrain], Completed, w).
Proof.
  intros Hone. unfold train_loop, xrange.
  replace (Z.to_nat (max_epoch config - 1)) with 0%nat by lia. reflexivity.
Qed.

Lemma step_loop_before_stop steps w k :
  (forall n, (w_polls w <= n < k)%nat -> should_stop n = false) ->
  (w_polls w + length steps <= k)%nat ->
  exists tr w', step_loop built steps w = (tr, Completed, w') /\
    count is_run tr = length steps /\ count is_trigger_epoch tr = 0%nat /\
    w_polls w' = (w_polls w + length steps)%nat.
Proof.
  revert w. induction steps as [|i steps IH]; intros w Hgo Hk.
  - exists [], w. simpl. repeat split. lia.
  - simpl in Hk. rewrite step_loop_go by (apply Hgo; lia). cbv zeta.
    destruct (IH {| w_session := snd (execute (w_session w) (fetches built));
                    w_polls := S (w_polls w) |})
      as (tr & w' & -> & Hrun & Hep & Hp).
    { intros n Hn. apply Hgo. simpl in Hn. lia. }
    { simpl. lia. }
    eexists _, w'. split; [reflexivity|]. unfold count in *. simpl in *.
    repeat split; lia.
Qed.

Lemma step_loop_at_stop steps w k :
  (forall n, (w_polls w <= n < k)%nat -> should_stop n = false) ->
  should_stop k = true ->
  (w_polls w <= k < w_polls w + length steps)%nat ->
  exists tr w', step_loop built steps w = (tr, Returned, w') /\
    count is_run tr = (k - w_polls w)%nat /\ count is_trigger_epoch tr = 0%nat.
Proof.
  revert w. induction steps as [|i steps IH]; intros w Hgo Hstop Hk.
  - simpl in Hk. lia.
  - destruct (Nat.eq_dec (w_polls w) k) as [Heq|Hne].
    + rewrite step_loop_stop by (rewrite Heq; exact Hstop).
      eexists _, _. split; [reflexivity|]. unfold count. simpl. split; lia.
    + simpl in Hk. rewrite step_loop_go by (apply Hgo; lia). cbv zeta.
      destruct (IH {| w_session := snd (execute (w_session w) (fetches built));
                      w_polls := S (w_polls w) |})
        as (tr & w' & -> & Hrun & Hep).
      { intros n Hn. apply Hgo. simpl in Hn. lia. }
      { exact Hstop. }
      { simpl. lia. }
      eexists _, w'. split; [reflexivity|]. unfold count in *. simpl in *.
      split; lia.
Qed.

Lemma epoch_loop_at_stop epochs w k :
  let S := Z.to_nat (step_per_epoch config) in
  (0 < S)%nat ->
  (forall n, (w_polls w <= n < k)%nat -> should_stop n = false) ->
  should_stop k = true ->
  (w_polls w <= k < w_polls w + length epochs * S)%nat ->
  exists tr w', epoch_loop config built epochs w = (tr, Returned, w') /\
    count is_run tr = (k - w_polls w)%nat /\
    count is_trigger_epoch tr = ((k - w_polls w) / S)%nat.
Proof.
  intros S HS. revert w. induction epochs as [|e epochs IH]; intros w Hgo Hstop Hk.
  - simpl in Hk. lia.
  - simpl. assert (HlenS : length (range (step_per_epoch config)) = S).
    { unfold range. apply length_seq. }
    destruct (Nat.lt_ge_cases (k - w_polls w) S) as [Hin|Hout].
    + destruct (step_loop_at_stop (range (step_per_epoch config)) w k Hgo Hstop)
        as (tr & w' & -> & Hrun & Hep); [rewrite HlenS; lia|].
      exists tr, w'. split; [reflexivity|]. split; [exact Hrun|].
      rewrite Hep. symmetry. apply Nat.div_small. exact Hin.
    + destruct (step_loop_before_stop (range (step_per_epoch config)) w k Hgo)
        as (tr & w1 & -> & Hrun & Hep & Hp); [rewrite HlenS; lia|].
      rewrite HlenS in *.
      destruct (IH w1) as (tr2 & w2 & -> & Hrun2 & Hep2).
      { intros n Hn. apply Hgo. lia. }
      { exact Hstop. }
      { simpl in Hk. lia. }
      eexists _, w2. split; [reflexivity|].
      change (tr ++ TriggerEpoch :: tr2) with (tr ++ [TriggerEpoch] ++ tr2).
      rewrite !count_app, Hrun, Hep, Hrun2, Hep2, Hp. unfold count at 1 2. simpl.
      split; [lia|].
      replace (k - w_polls w)%nat with ((k - (w_polls w + S)) + 1 * S)%nat by lia.
      rewrite Nat.div_add by lia. lia.
Qed.

(** X18: when the coordinator first answers stop at the poll numbered
    [k], before the epochs are over, the training has made exactly [k]
    steps and [k / step_per_epoch] calls of [trigger_epoch], and
    returns. *)
Theorem stop_at_poll (w : world) (k : nat) :
  let S := Z.to_nat (step_per_epoch config) in
  let M := Z.to_nat (max_epoch config - 1) in
  w_polls w = 0%nat ->
  (forall n, (n < k)%nat -> should_stop n = false) ->
  should_stop k = true ->
  (k < S * M)%nat ->
  exists tr w', train_loop config built w = (tr, Returned, w') /\
    count is_run tr = k /\ count is_trigger_epoch tr = (k / S)%nat.
Proof.
  intros S M Hp Hgo Hstop Hk. unfold train_loop.
  destruct (epoch_loop_at_stop (xrange 1 (max_epoch config)) w k)
    as (tr & w' & -> & Hrun & Hep).
  - fold S. destruct S; lia.
  - intros n Hn. apply Hgo. lia.
  - exact Hstop.
  - rewrite length_xrange, Hp. fold S. fold M. lia.
  - exists (BeforeTrain :: tr), w'. split; [reflexivity|].
    rewrite Hp, Nat.sub_0_r in *.
    change (BeforeTrain :: tr) with ([BeforeTrain] ++ tr).
    rewrite !count_app, Hrun, Hep. unfold count. simpl. auto.
Qed.

End LoopMore.

Lemma loop_runs_once_per_step_witness :
  count is_trigger_step
    (train_loop (RT := Examples.toy_runtime (Examples.from 4))
                (Examples.config_of 3 1 (PyBool true)) Examples.toy_built
                (@Build_world (Examples.toy_runtime (Examples.from 4)) 0%nat 0%nat)).1.1
  = 4%nat.
Proof.
  pose proof (loop_runs_once_per_step (RT := Examples.toy_runtime (Examples.from 4))
                (Examples.config_of 3 1 (PyBool true)) Examples.toy_built
                (@Build_world (Examples.toy_runtime (Examples.from 4)) 0%nat 0%nat)) as H.
  destruct (train_loop _ _ _) as [[tr out] w'] eqn:Hloop.
  destruct H as (_ & Hcount & _). simpl. rewrite Hcount.
  vm_compute in Hloop. inversion Hloop. reflexivity.
Defined.

Lemma one_epoch_trains_nothing_witness :
  train_loop (RT := Examples.toy_runtime Examples.never)
             (Examples.config_of 1 1 (PyBool true)) Examples.toy_built
             (@Build_world (Examples.toy_runtime Examples.never) 0%nat 0%nat)
  = ([BeforeTrain], Completed,
     @Build_world (Examples.toy_runtime Examples.never) 0%nat 0%nat).
Proof.
  apply (one_epoch_trains_nothing (RT := Examples.toy_runtime Examples.never)).
  simpl. lia.
Defined.

Lemma stop_at_poll_witness :
  exists tr w',
    train_loop (RT := Examples.toy_runtime (Examples.from 4))
               (Examples.config_of 3 1 (PyBool true)) Examples.toy_built
               (@Build_world (Examples.toy_runtime (Examples.from 4)) 0%nat 0%nat)
    = (tr, Returned, w') /\
    count is_run tr = 4%nat /\ count is_trigger_epoch tr = (4 / 3)%nat.
Proof.
  apply (stop_at_poll (RT := Examples.toy_runtime (Examples.from 4))
           (Examples.config_of 3 1 (PyBool true)) Examples.toy_built
           (@Build_world (Examples.toy_runtime (Examples.from 4)) 0%nat 0%nat) 4%nat).
  - reflexivity.
  - intros n Hn. apply Nat.leb_gt. exact Hn.
  - reflexivity.
  - simpl. lia.
Defined.
